(** * easytcp: the Server

    A shallow embedding of [NewServer], [Serve], [acceptLoop],
    [handleConn], [Stop] and [isStopped], and the properties of the
    server's start-up, accept loop and shutdown; and of the session
    manager and the broadcast handler of the broadcast example server.

    Go values are modelled as follows.
    - [int] and [time.Duration] are [Z] (no arithmetic on them can
      overflow here: the options are only compared and copied).
    - an [error] is [option error_value]; [None] is Go's [nil].
    - a [chan struct{}] that is only ever closed is its [chan_state].
    - [*Session] is a reference into the heap of sessions; the
      process-wide registry [Sessions()] is a finite map from the
      session id to such a reference.
    - a statement with an effect outside the server (a call on the
      listener, on a connection, a [go] statement, a log line) appends an
      [Event] to the trace; what the outside answers is an input. *)

From stdpp Require Import base option list strings gmap fin_maps.
From stdpp Require Import sorting pretty.
From Stdlib Require Import ZArith.

Local Open Scope Z_scope.

(** ** Values of the Go runtime and of package net *)

(** Non-nil values of Go's [error] interface.  [ErrServerStopped] is the
    package variable of that name (compared by identity); [NetError] is
    a value that implements [net.Error], with what its [Temporary()]
    answers; [PlainError] is any other error of a collaborator;
    [Errorf] is a fresh value made by [fmt.Errorf] from the formatted
    text. *)
Inductive error_value : Type :=
| ErrServerStopped
| NetError (msg : string) (temporary : bool)
| PlainError (msg : string)
| Errorf (msg : string).

Abbreviation error := (option error_value).

#[global] Instance error_value_eq_dec : EqDecision error_value.
Proof. solve_decision. Defined.

(** [err.Error()]. *)
Definition Error (e : error_value) : string :=
  match e with
  | ErrServerStopped => "server stopped"
  | NetError msg _ => msg
  | PlainError msg => msg
  | Errorf msg => msg
  end.

(** [ne, ok := err.(net.Error); ok && ne.Temporary()]. *)
Definition isTemporary (e : error_value) : bool :=
  match e with
  | NetError _ temporary => temporary
  | _ => false
  end.

(** A channel of type [chan struct{}] on which nothing is ever sent. *)
Inductive chan_state : Type := ChanOpen | ChanClosed.

#[global] Instance chan_state_eq_dec : EqDecision chan_state.
Proof. solve_decision. Defined.

(** [time.Duration] counts nanoseconds. *)
Definition Millisecond : Z := 1000000.

(** The interface values handed to the sessions; only whether they are
    nil and which one they are matters to the server. *)
Inductive Packer : Type := DefaultPacker | UserPacker (n : nat).
Inductive Codec : Type := UserCodec (n : nat).
Inductive Hook : Type := UserHook (n : nat).

#[global] Instance Packer_eq_dec : EqDecision Packer.
Proof. solve_decision. Defined.
#[global] Instance Codec_eq_dec : EqDecision Codec.
Proof. solve_decision. Defined.
#[global] Instance Hook_eq_dec : EqDecision Hook.
Proof. solve_decision. Defined.

Definition NewDefaultPacker : Packer := DefaultPacker.

(** A [net.Conn] as the accept loop sees it: whether its dynamic type is
    a pointer to [net.TCPConn], and what its setters and [Close] answer. *)
Record Conn : Type := mkConn {
  conn_id : nat;
  conn_is_tcp : bool;
  conn_SetReadBuffer : error;
  conn_SetWriteBuffer : error;
  conn_SetNoDelay : error;
  conn_Close : error;
}.

#[global] Instance Conn_eq_dec : EqDecision Conn.
Proof. solve_decision. Defined.

(** A [net.Listener]: its address and what its [Close] answers.  What
    its [Accept] answers, call after call, is an input of the accept
    loop. *)
Record Listener : Type := mkListener {
  lis_Addr : string;
  lis_Close : error;
}.

#[global] Instance Listener_eq_dec : EqDecision Listener.
Proof. solve_decision. Defined.

(** ** Constants *)

Definition DefaultReqQueueSize : Z := 1024.
Definition DefaultRespQueueSize : Z := 1024.
Definition DefaultWriteAttemptTimes : Z := 1.
Definition tempErrDelay : Z := Millisecond * 5.

(** ** The router, as far as the server drives it *)

(** Modelled from the spec: [newRouter], [consumeRequest] and [stop] are
    not part of the server file.  The router owns the shared bounded
    request queue, whose bound is the argument of [newRouter]; its
    dispatch stage is started by [consumeRequest]; [stop] makes it stop
    accepting further queue items. *)
Record Router : Type := mkRouter {
  reqQueueSize : Z;
  routerStopped : bool;
}.

Definition newRouter (size : Z) : Router :=
  {| reqQueueSize := size; routerStopped := false |}.

(** ** ServerOption and Server *)

Module ServerOption.
Record t : Type := mk {
  SocketReadBufferSize : Z;
  SocketWriteBufferSize : Z;
  SocketSendDelay : bool;
  ReadTimeout : Z;
  WriteTimeout : Z;
  Packer : option Packer;
  Codec : option Codec;
  ReqQueueSize : Z;
  RespQueueSize : Z;
  DoNotPrintRoutes : bool;
  WriteAttemptTimes : Z;
}.

Definition set_Packer p (o : t) : t :=
  mk (SocketReadBufferSize o) (SocketWriteBufferSize o) (SocketSendDelay o)
     (ReadTimeout o) (WriteTimeout o) p (Codec o) (ReqQueueSize o)
     (RespQueueSize o) (DoNotPrintRoutes o) (WriteAttemptTimes o).

Definition set_ReqQueueSize (n : Z) (o : t) : t :=
  mk (SocketReadBufferSize o) (SocketWriteBufferSize o) (SocketSendDelay o)
     (ReadTimeout o) (WriteTimeout o) (Packer o) (Codec o) n
     (RespQueueSize o) (DoNotPrintRoutes o) (WriteAttemptTimes o).

Definition set_RespQueueSize (n : Z) (o : t) : t :=
  mk (SocketReadBufferSize o) (SocketWriteBufferSize o) (SocketSendDelay o)
     (ReadTimeout o) (WriteTimeout o) (Packer o) (Codec o) (ReqQueueSize o)
     n (DoNotPrintRoutes o) (WriteAttemptTimes o).

Definition set_WriteAttemptTimes (n : Z) (o : t) : t :=
  mk (SocketReadBufferSize o) (SocketWriteBufferSize o) (SocketSendDelay o)
     (ReadTimeout o) (WriteTimeout o) (Packer o) (Codec o) (ReqQueueSize o)
     (RespQueueSize o) (DoNotPrintRoutes o) n.
End ServerOption.

Module Server.
Record t : Type := mk {
  Listener : option Listener;
  Packer : option Packer;
  Codec : option Codec;
  OnSessionCreate : option Hook;
  OnSessionClose : option Hook;
  socketReadBufferSize : Z;
  socketWriteBufferSize : Z;
  socketSendDelay : bool;
  readTimeout : Z;
  writeTimeout : Z;
  respQueueSize : Z;
  router : Router;
  printRoutes : bool;
  accepting : chan_state;
  stopped : chan_state;
  writeAttemptTimes : Z;
}.
End Server.

(** [NewServer] fills the defaults into the option it is given (it holds
    a pointer to it, so the caller sees them) and builds the server from
    it.  The hooks and the listener are left unset. *)
Definition NewServer_defaults (opt : ServerOption.t) : ServerOption.t :=
  let opt :=
    if decide (ServerOption.Packer opt = None)
    then ServerOption.set_Packer (Some NewDefaultPacker) opt else opt in
  let opt :=
    if decide (ServerOption.ReqQueueSize opt < 0)
    then ServerOption.set_ReqQueueSize DefaultRespQueueSize opt else opt in
  let opt :=
    if decide (ServerOption.RespQueueSize opt < 0)
    then ServerOption.set_RespQueueSize DefaultReqQueueSize opt else opt in
  let opt :=
    if decide (ServerOption.WriteAttemptTimes opt <= 0)
    then ServerOption.set_WriteAttemptTimes DefaultWriteAttemptTimes opt
    else opt in
  opt.

Definition NewServer (opt : ServerOption.t) : ServerOption.t * Server.t :=
  let opt := NewServer_defaults opt in
  (opt,
   {| Server.Listener := None;
      Server.Packer := ServerOption.Packer opt;
      Server.Codec := ServerOption.Codec opt;
      Server.OnSessionCreate := None;
      Server.OnSessionClose := None;
      Server.socketReadBufferSize := ServerOption.SocketReadBufferSize opt;
      Server.socketWriteBufferSize := ServerOption.SocketWriteBufferSize opt;
      Server.socketSendDelay := ServerOption.SocketSendDelay opt;
      Server.respQueueSize := ServerOption.RespQueueSize opt;
      Server.readTimeout := ServerOption.ReadTimeout opt;
      Server.writeTimeout := ServerOption.WriteTimeout opt;
      Server.printRoutes := negb (ServerOption.DoNotPrintRoutes opt);
      Server.router := newRouter (ServerOption.ReqQueueSize opt);
      Server.accepting := ChanOpen;
      Server.stopped := ChanOpen;
      Server.writeAttemptTimes := ServerOption.WriteAttemptTimes opt |}).

(** ** Sessions and the session registry *)

(** Modelled from the spec: the Session type, [newSession], [Close] and
    [ID] are not part of the server file.  A Session owns one
    connection, has an identifier, a private bounded response queue and
    a closed signal that fires once; the first [Close] closes the
    underlying connection and fires the signal, every later one is a
    no-op. *)
Record Session : Type := mkSession {
  sess_id : string;
  sess_conn : Conn;
  sess_Packer : option Packer;
  sess_Codec : option Codec;
  sess_respQueueSize : Z;
  sess_closed : chan_state;
  sess_connClosed : bool;
}.

Record SessionOption : Type := mkSessionOption {
  so_Packer : option Packer;
  so_Codec : option Codec;
  so_respQueueSize : Z;
}.

Definition Session_closed_fired (x : Session) : Session :=
  {| sess_id := sess_id x; sess_conn := sess_conn x;
     sess_Packer := sess_Packer x; sess_Codec := sess_Codec x;
     sess_respQueueSize := sess_respQueueSize x;
     sess_closed := ChanClosed; sess_connClosed := true |}.

(** What a [go] statement starts. *)
Inductive Task : Type :=
| Task_consumeRequest
| Task_handleConn (conn : Conn)
| Task_OnSessionCreate (h : Hook) (sess : nat)
| Task_OnSessionClose (h : Hook) (sess : nat)
| Task_readInbound (sess : nat) (timeout : Z)
| Task_writeOutbound (sess : nat) (timeout attemptTimes : Z).

Inductive LogLine : Type :=
| LogAcceptLoopStopped
| LogAcceptRetry (err : error_value) (delay : Z)
| LogSessionsClosed (closedNum : Z)
| LogConnCloseErr (err : error_value).

Inductive ServerChan : Type := ch_accepting | ch_stopped.

(** The observable actions of the server, in the order it takes them. *)
Inductive Event : Type :=
| EvResolveTCPAddr (addr : string)
| EvListenTCP (address : string)
| EvPrintHandlers (addr : string)
| EvGo (t : Task)
| EvCloseChan (c : ServerChan)
| EvAccept
| EvSleep (d : Z)
| EvSetReadBuffer (conn : Conn) (bytes : Z)
| EvSetWriteBuffer (conn : Conn) (bytes : Z)
| EvSetNoDelay (conn : Conn) (noDelay : bool)
| EvNewSession (conn : Conn) (sess : nat)
| EvSessionsAdd (id : string) (sess : nat)
| EvSessionsRemove (id : string)
| EvRecvClosed (sess : nat)
| EvConnClose (conn : Conn)
| EvSessionClose (sess : nat)
| EvRouterStop
| EvListenerClose
| EvTracef (l : LogLine)
| EvErrorf (l : LogLine).

#[global] Instance Task_eq_dec : EqDecision Task.
Proof. solve_decision. Defined.
#[global] Instance LogLine_eq_dec : EqDecision LogLine.
Proof. solve_decision. Defined.
#[global] Instance ServerChan_eq_dec : EqDecision ServerChan.
Proof. solve_decision. Defined.
#[global] Instance Event_eq_dec : EqDecision Event.
Proof. solve_decision. Defined.

(** ** The state the server code runs on *)

Record State : Type := mkState {
  srv : Server.t;
  heap : gmap nat Session;
  registry : gmap string nat;
  trace : list Event;
}.

Definition initial (s : Server.t) : State :=
  {| srv := s; heap := ∅; registry := ∅; trace := [] |}.

Inductive PanicValue : Type :=
| CloseOfClosedChannel
| NilPointerDereference
| InterfaceConversion.

(** How a call ends: it returns, it panics, or it is still blocked when
    the inputs are used up. *)
Inductive result (A : Type) : Type :=
| Returns (a : A)
| Panics (p : PanicValue)
| Blocks.
Arguments Returns {A} a.
Arguments Panics {A} p.
Arguments Blocks {A}.

Definition M (A : Type) : Type := State → result A * State.

#[global] Instance M_ret : MRet M := λ A a st, (Returns a, st).
#[global] Instance M_bind : MBind M := λ A B f m st,
  match m st with
  | (Returns a, st') => f a st'
  | (Panics p, st') => (Panics p, st')
  | (Blocks, st') => (Blocks, st')
  end.

Definition panic {A} (p : PanicValue) : M A := λ st, (Panics p, st).
Definition block {A} : M A := λ st, (Blocks, st).
Definition get_srv : M Server.t := λ st, (Returns (srv st), st).
Definition get_heap : M (gmap nat Session) := λ st, (Returns (heap st), st).
Definition get_registry : M (gmap string nat) :=
  λ st, (Returns (registry st), st).
Definition put_srv (s : Server.t) : M unit := λ st,
  (Returns (), {| srv := s; heap := heap st; registry := registry st;
                  trace := trace st |}).
Definition put_heap (h : gmap nat Session) : M unit := λ st,
  (Returns (), {| srv := srv st; heap := h; registry := registry st;
                  trace := trace st |}).
Definition put_registry (r : gmap string nat) : M unit := λ st,
  (Returns (), {| srv := srv st; heap := heap st; registry := r;
                  trace := trace st |}).
Definition emit (e : Event) : M unit := λ st,
  (Returns (), {| srv := srv st; heap := heap st; registry := registry st;
                  trace := trace st ++ [e] |}).

(** Field updates of the server through its pointer. *)
Definition with_Listener (l : option Listener) (s : Server.t) : Server.t :=
  Server.mk l (Server.Packer s) (Server.Codec s) (Server.OnSessionCreate s)
    (Server.OnSessionClose s) (Server.socketReadBufferSize s)
    (Server.socketWriteBufferSize s) (Server.socketSendDelay s)
    (Server.readTimeout s) (Server.writeTimeout s) (Server.respQueueSize s)
    (Server.router s) (Server.printRoutes s) (Server.accepting s)
    (Server.stopped s) (Server.writeAttemptTimes s).

Definition with_router (r : Router) (s : Server.t) : Server.t :=
  Server.mk (Server.Listener s) (Server.Packer s) (Server.Codec s)
    (Server.OnSessionCreate s) (Server.OnSessionClose s)
    (Server.socketReadBufferSize s) (Server.socketWriteBufferSize s)
    (Server.socketSendDelay s) (Server.readTimeout s) (Server.writeTimeout s)
    (Server.respQueueSize s) r (Server.printRoutes s) (Server.accepting s)
    (Server.stopped s) (Server.writeAttemptTimes s).

Definition with_accepting (c : chan_state) (s : Server.t) : Server.t :=
  Server.mk (Server.Listener s) (Server.Packer s) (Server.Codec s)
    (Server.OnSessionCreate s) (Server.OnSessionClose s)
    (Server.socketReadBufferSize s) (Server.socketWriteBufferSize s)
    (Server.socketSendDelay s) (Server.readTimeout s) (Server.writeTimeout s)
    (Server.respQueueSize s) (Server.router s) (Server.printRoutes s) c
    (Server.stopped s) (Server.writeAttemptTimes s).

Definition with_stopped (c : chan_state) (s : Server.t) : Server.t :=
  Server.mk (Server.Listener s) (Server.Packer s) (Server.Codec s)
    (Server.OnSessionCreate s) (Server.OnSessionClose s)
    (Server.socketReadBufferSize s) (Server.socketWriteBufferSize s)
    (Server.socketSendDelay s) (Server.readTimeout s) (Server.writeTimeout s)
    (Server.respQueueSize s) (Server.router s) (Server.printRoutes s)
    (Server.accepting s) c (Server.writeAttemptTimes s).

Definition with_hooks (create close : option Hook) (s : Server.t)
    : Server.t :=
  Server.mk (Server.Listener s) (Server.Packer s) (Server.Codec s)
    create close (Server.socketReadBufferSize s)
    (Server.socketWriteBufferSize s) (Server.socketSendDelay s)
    (Server.readTimeout s) (Server.writeTimeout s) (Server.respQueueSize s)
    (Server.router s) (Server.printRoutes s) (Server.accepting s)
    (Server.stopped s) (Server.writeAttemptTimes s).

(** [close(ch)] on one of the server's two channels: closing a closed
    channel panics. *)
Definition chan_of (c : ServerChan) (s : Server.t) : chan_state :=
  match c with
  | ch_accepting => Server.accepting s
  | ch_stopped => Server.stopped s
  end.

Definition close_chan (c : ServerChan) : M unit :=
  s ← get_srv;
  match chan_of c s with
  | ChanClosed => panic CloseOfClosedChannel
  | ChanOpen =>
      emit (EvCloseChan c) ;;
      put_srv (match c with
               | ch_accepting => with_accepting ChanClosed s
               | ch_stopped => with_stopped ChanClosed s
               end)
  end.

(** Modelled from the spec: [sess.Close()], through the pointer [sess];
    it closes the connection and fires the closed signal, and is a
    no-op on a session that is closed already. *)
Definition Session_Close (sess : nat) : M unit :=
  emit (EvSessionClose sess) ;;
  h ← get_heap;
  put_heap (alter Session_closed_fired sess h).

(** Modelled from the spec: [sess.ID()], the identifier of the session;
    a pointer the server holds is never dangling. *)
Definition Session_ID (sess : nat) : M string :=
  h ← get_heap;
  match h !! sess with
  | Some x => mret (sess_id x)
  | None => panic NilPointerDereference
  end.

(** Modelled from the spec: the registry [Sessions()] with [Add],
    [Remove] and [Range] is not part of the server file.  It maps the
    session identifier to the Session; [Range] calls its argument on
    the entries one after the other for as long as it answers true.
    The variable the callback captures is threaded through as [a]. *)
Definition Sessions_Add (sess : nat) : M unit :=
  id ← Session_ID sess;
  emit (EvSessionsAdd id sess) ;;
  r ← get_registry;
  put_registry (<[id := sess]> r).

Definition Sessions_Remove (id : string) : M unit :=
  emit (EvSessionsRemove id) ;;
  r ← get_registry;
  put_registry (delete id r).

Fixpoint Range_entries {A} (f : string → nat → A → M (A * bool))
    (entries : list (string * nat)) (a : A) : M A :=
  match entries with
  | [] => mret a
  | (id, sess) :: rest =>
      '(a', next) ← f id sess a;
      if next : bool then Range_entries f rest a' else mret a'
  end.

Definition Sessions_Range {A} (f : string → nat → A → M (A * bool))
    (a : A) : M A :=
  r ← get_registry;
  Range_entries f (map_to_list r) a.

(** [closedNum++] on a Go [int] (64 bits, two's complement). *)
Definition int_wrap (z : Z) : Z := (z + 2 ^ 63) `mod` 2 ^ 64 - 2 ^ 63.
Definition int_incr (z : Z) : Z := int_wrap (z + 1).

(** ** isStopped and Stop *)

Definition isStopped : M bool :=
  s ← get_srv;
  match Server.stopped s with
  | ChanClosed => mret true
  | ChanOpen => mret false
  end.

(** Modelled from the spec: [s.router.stop()] makes the router stop
    accepting further queue items. *)
Definition router_stop : M unit :=
  emit EvRouterStop ;;
  s ← get_srv;
  put_srv (with_router {| reqQueueSize := reqQueueSize (Server.router s);
                          routerStopped := true |} s).

(** [s.Listener.Close()]; a method call on a nil interface panics. *)
Definition Listener_Close : M error :=
  s ← get_srv;
  match Server.Listener s with
  | None => panic NilPointerDereference
  | Some lis => emit EvListenerClose ;; mret (lis_Close lis)
  end.

Definition Stop : M error :=
  close_chan ch_stopped ;;
  closedNum ← Sessions_Range
    (λ _ sess closedNum,
       Session_Close sess ;; mret (int_incr closedNum, true)) 0;
  emit (EvTracef (LogSessionsClosed closedNum)) ;;
  router_stop ;;
  Listener_Close.

(** ** Serve and the accept loop *)

(** One call of [s.Listener.Accept()]: what it answers, and whether
    another goroutine closes [s.stopped] (a [Stop]) while the call is
    blocked. *)
Record AcceptTurn : Type := mkTurn {
  accepted : Conn + error_value;
  stopped_meanwhile : bool;
}.

Definition concurrent_close_stopped (b : bool) : M unit :=
  if b then s ← get_srv; put_srv (with_stopped ChanClosed s) else mret ().

(** What one pass through the body of a [for] loop does next. *)
Inductive LoopStep : Type :=
| Continue
| Return (err : error).

(** The type assertion of [conn] to a pointer to [net.TCPConn]: it panics
    on another dynamic type. *)
Definition as_TCPConn (conn : Conn) : M Conn :=
  if conn_is_tcp conn then mret conn else panic InterfaceConversion.

Definition Listener_Accept (t : AcceptTurn) : M (Conn + error_value) :=
  s ← get_srv;
  match Server.Listener s with
  | None => panic NilPointerDereference
  | Some _ =>
      emit EvAccept ;;
      concurrent_close_stopped (stopped_meanwhile t) ;;
      mret (accepted t)
  end.

Definition acceptLoop_body (t : AcceptTurn) : M LoopStep :=
  stop ← isStopped;
  if stop : bool then
    emit (EvTracef LogAcceptLoopStopped) ;;
    mret (Return (Some ErrServerStopped))
  else
    r ← Listener_Accept t;
    match r with
    | inr err =>
        stop ← isStopped;
        if stop : bool then
          emit (EvTracef LogAcceptLoopStopped) ;;
          mret (Return (Some ErrServerStopped))
        else if isTemporary err then
          emit (EvErrorf (LogAcceptRetry err tempErrDelay)) ;;
          emit (EvSleep tempErrDelay) ;;
          mret Continue
        else mret (Return (Some (Errorf ("accept err: " +:+ Error err))))
    | inl conn =>
        s ← get_srv;
        e1 ← (if decide (0 < Server.socketReadBufferSize s) then
                tcp ← as_TCPConn conn;
                emit (EvSetReadBuffer tcp (Server.socketReadBufferSize s)) ;;
                mret (conn_SetReadBuffer tcp)
              else mret None);
        match e1 with
        | Some err =>
            mret (Return (Some
              (Errorf ("conn set read buffer err: " +:+ Error err))))
        | None =>
        e2 ← (if decide (0 < Server.socketWriteBufferSize s) then
                tcp ← as_TCPConn conn;
                emit (EvSetWriteBuffer tcp (Server.socketWriteBufferSize s)) ;;
                mret (conn_SetWriteBuffer tcp)
              else mret None);
        match e2 with
        | Some err =>
            mret (Return (Some
              (Errorf ("conn set write buffer err: " +:+ Error err))))
        | None =>
        e3 ← (if Server.socketSendDelay s then
                tcp ← as_TCPConn conn;
                emit (EvSetNoDelay tcp false) ;;
                mret (conn_SetNoDelay tcp)
              else mret None);
        match e3 with
        | Some err =>
            mret (Return (Some
              (Errorf ("conn set no delay err: " +:+ Error err))))
        | None =>
            emit (EvGo (Task_handleConn conn)) ;;
            mret Continue
        end end end
    end.

(** The [for] loop, one [AcceptTurn] per call of [Accept].  When the
    turns are used up no connection arrives any more: the loop sees
    whether the server is stopped and otherwise stays blocked in
    [Accept]. *)
Fixpoint acceptLoop_for (turns : list AcceptTurn) : M error :=
  match turns with
  | [] =>
      stop ← isStopped;
      if stop : bool then
        emit (EvTracef LogAcceptLoopStopped) ;; mret (Some ErrServerStopped)
      else
        s ← get_srv;
        match Server.Listener s with
        | None => panic NilPointerDereference
        | Some _ => emit EvAccept ;; block
        end
  | t :: rest =>
      r ← acceptLoop_body t;
      match r with
      | Continue => acceptLoop_for rest
      | Return err => mret err
      end
  end.

Definition acceptLoop (turns : list AcceptTurn) : M error :=
  close_chan ch_accepting ;;
  acceptLoop_for turns.

(** What the network answers to [Serve]: [net.ResolveTCPAddr],
    [net.ListenTCP], and then the calls of [Accept]. *)
Record ServeEnv : Type := mkServeEnv {
  env_ResolveTCPAddr : string + error_value;
  env_ListenTCP : Listener + error_value;
  env_turns : list AcceptTurn;
}.

Definition Serve (addr : string) (env : ServeEnv) : M error :=
  emit (EvResolveTCPAddr addr) ;;
  match env_ResolveTCPAddr env with
  | inr err => mret (Some err)
  | inl address =>
      emit (EvListenTCP address) ;;
      match env_ListenTCP env with
      | inr err => mret (Some err)
      | inl lis =>
          s ← get_srv;
          put_srv (with_Listener (Some lis) s) ;;
          (if Server.printRoutes s
           then emit (EvPrintHandlers ("tcp://" +:+ lis_Addr lis))
           else mret ()) ;;
          emit (EvGo Task_consumeRequest) ;;
          acceptLoop (env_turns env)
      end
  end.

(** ** handleConn *)

(** Modelled from the spec: [newSession] is not part of the server file.
    It builds the Session of a connection from the session options,
    open, with the identifier [id] it is assigned. *)
Definition newSession (id : string) (conn : Conn) (opt : SessionOption)
    : M nat :=
  h ← get_heap;
  let sess := fresh (dom h) in
  emit (EvNewSession conn sess) ;;
  put_heap (<[sess := {| sess_id := id; sess_conn := conn;
                         sess_Packer := so_Packer opt;
                         sess_Codec := so_Codec opt;
                         sess_respQueueSize := so_respQueueSize opt;
                         sess_closed := ChanOpen;
                         sess_connClosed := false |}]> h) ;;
  mret sess.

(** [<-sess.closed]: nothing is ever sent on the channel, so the receive
    completes once the channel is closed and blocks until then. *)
Definition recv_closed (sess : nat) : M unit :=
  h ← get_heap;
  match h !! sess with
  | None => panic NilPointerDereference
  | Some x =>
      match sess_closed x with
      | ChanClosed => emit (EvRecvClosed sess)
      | ChanOpen => block
      end
  end.

(** The statements of [handleConn], as the points its goroutine can be
    at; from [hc_Add] on, the local variable [sess] is set. *)
Inductive hc_pc : Type :=
| hc_newSession
| hc_Add (sess : nat)
| hc_OnSessionCreate (sess : nat)
| hc_go_readInbound (sess : nat)
| hc_go_writeOutbound (sess : nat)
| hc_recv_closed (sess : nat)
| hc_Remove (sess : nat)
| hc_OnSessionClose (sess : nat)
| hc_conn_Close (sess : nat)
| hc_return.

#[global] Instance hc_pc_eq_dec : EqDecision hc_pc.
Proof. solve_decision. Defined.

(** One statement of [handleConn]; [id] is the identifier [newSession]
    assigns. *)
Definition handleConn_step (id : string) (conn : Conn) (pc : hc_pc)
    : M hc_pc :=
  s ← get_srv;
  match pc with
  | hc_newSession =>
      sess ← newSession id conn
        {| so_Packer := Server.Packer s; so_Codec := Server.Codec s;
           so_respQueueSize := Server.respQueueSize s |};
      mret (hc_Add sess)
  | hc_Add sess =>
      Sessions_Add sess ;; mret (hc_OnSessionCreate sess)
  | hc_OnSessionCreate sess =>
      match Server.OnSessionCreate s with
      | Some h => emit (EvGo (Task_OnSessionCreate h sess))
      | None => mret ()
      end ;;
      mret (hc_go_readInbound sess)
  | hc_go_readInbound sess =>
      emit (EvGo (Task_readInbound sess (Server.readTimeout s))) ;;
      mret (hc_go_writeOutbound sess)
  | hc_go_writeOutbound sess =>
      emit (EvGo (Task_writeOutbound sess (Server.writeTimeout s)
                    (Server.writeAttemptTimes s))) ;;
      mret (hc_recv_closed sess)
  | hc_recv_closed sess =>
      recv_closed sess ;; mret (hc_Remove sess)
  | hc_Remove sess =>
      id ← Session_ID sess;
      Sessions_Remove id ;;
      mret (hc_OnSessionClose sess)
  | hc_OnSessionClose sess =>
      match Server.OnSessionClose s with
      | Some h => emit (EvGo (Task_OnSessionClose h sess))
      | None => mret ()
      end ;;
      mret (hc_conn_Close sess)
  | hc_conn_Close sess =>
      emit (EvConnClose conn) ;;
      match conn_Close conn with
      | Some err => emit (EvErrorf (LogConnCloseErr err))
      | None => mret ()
      end ;;
      mret hc_return
  | hc_return => mret hc_return
  end.

(** [n] statements in a row, with nothing else running in between. *)
Fixpoint handleConn_steps (n : nat) (id : string) (conn : Conn) (pc : hc_pc)
    : M hc_pc :=
  match n with
  | O => mret pc
  | S n' =>
      pc' ← handleConn_step id conn pc;
      handleConn_steps n' id conn pc'
  end.

(** The whole body, when the session is closed by the time the receive
    is reached. *)
Definition handleConn (id : string) (conn : Conn) : M unit :=
  handleConn_steps 9 id conn hc_newSession ;; mret ().

(** * Definitions used in the statements *)

(** ** States and traces *)

(** The state with more events in its trace. *)
Definition add_events (evs : list Event) (st : State) : State :=
  {| srv := srv st; heap := heap st; registry := registry st;
     trace := trace st ++ evs |}.

(** The state when a call of [Accept] has answered: the call is in the
    trace, and [s.stopped] is closed if a [Stop] ran meanwhile. *)
Definition after_Accept (t : AcceptTurn) (st : State) : State :=
  {| srv := if stopped_meanwhile t then with_stopped ChanClosed (srv st)
            else srv st;
     heap := heap st; registry := registry st;
     trace := trace st ++ [EvAccept] |}.

(** ** NewServer *)

(** The sizes the server ends up with: the bound of the router's request
    queue, and the bound handed to every session for its response
    queue. *)
Definition used_reqQueueSize (opt : ServerOption.t) : Z :=
  reqQueueSize (Server.router (NewServer opt).2).

Definition used_respQueueSize (opt : ServerOption.t) : Z :=
  Server.respQueueSize (NewServer opt).2.

Definition used_writeAttemptTimes (opt : ServerOption.t) : Z :=
  Server.writeAttemptTimes (NewServer opt).2.

(** ** Stop *)

(** The callback [Stop] hands to [Range]. *)
Definition Stop_callback (_ : string) (sess : nat) (closedNum : Z)
    : M (Z * bool) :=
  Session_Close sess ;; mret (int_incr closedNum, true).

(** The heap after [Close] was called through each pointer of [ps]. *)
Definition closed_through (ps : list nat) (h : gmap nat Session)
    : gmap nat Session :=
  foldl (λ h p, alter Session_closed_fired p h) h ps.

(** The sessions [Range] visits, in the order it visits them, and the
    count the callback has reached at the end. *)
Definition Stop_sessions (st : State) : list nat :=
  (map_to_list (registry st)).*2.

Definition Stop_closedNum (st : State) : Z :=
  Nat.iter (length (map_to_list (registry st))) int_incr 0.

(** What [Stop] does when [s.stopped] is open, and the state it leaves
    behind: the channel closed, every registered session closed, the
    router stopped; the listener is closed when there is one. *)
Definition Stop_events (st : State) : list Event :=
  [EvCloseChan ch_stopped] ++
  (EvSessionClose <$> Stop_sessions st) ++
  [EvTracef (LogSessionsClosed (Stop_closedNum st)); EvRouterStop] ++
  match Server.Listener (srv st) with
  | Some _ => [EvListenerClose]
  | None => []
  end.

Definition Stop_state (st : State) : State :=
  {| srv := with_router
       {| reqQueueSize := reqQueueSize (Server.router (srv st));
          routerStopped := true |}
       (with_stopped ChanClosed (srv st));
     heap := closed_through (Stop_sessions st) (heap st);
     registry := registry st;
     trace := trace st ++ Stop_events st |}.

(** ** The accept loop and Serve *)

(** The setters the loop calls on an accepted connection, in order, as
    long as each one succeeds, and the error that ends them, if any. *)
Definition socket_options (s : Server.t) (conn : Conn)
    : list Event * error :=
  let rb := Server.socketReadBufferSize s in
  let wb := Server.socketWriteBufferSize s in
  let ev1 := if decide (0 < rb) then [EvSetReadBuffer conn rb] else [] in
  let ev2 := if decide (0 < wb) then [EvSetWriteBuffer conn wb] else [] in
  let ev3 := if Server.socketSendDelay s then [EvSetNoDelay conn false]
             else [] in
  match (if decide (0 < rb) then conn_SetReadBuffer conn else None) with
  | Some err =>
      (ev1, Some (Errorf ("conn set read buffer err: " +:+ Error err)))
  | None =>
  match (if decide (0 < wb) then conn_SetWriteBuffer conn else None) with
  | Some err =>
      (ev1 ++ ev2, Some (Errorf ("conn set write buffer err: " +:+ Error err)))
  | None =>
  match (if Server.socketSendDelay s then conn_SetNoDelay conn else None) with
  | Some err =>
      (ev1 ++ ev2 ++ ev3,
       Some (Errorf ("conn set no delay err: " +:+ Error err)))
  | None => (ev1 ++ ev2 ++ ev3, None)
  end end end.

(** The calls of the three setters, each one only when it is
    configured. *)
Definition read_buffer_events (s : Server.t) (conn : Conn) : list Event :=
  if decide (0 < Server.socketReadBufferSize s)
  then [EvSetReadBuffer conn (Server.socketReadBufferSize s)] else [].

Definition write_buffer_events (s : Server.t) (conn : Conn) : list Event :=
  if decide (0 < Server.socketWriteBufferSize s)
  then [EvSetWriteBuffer conn (Server.socketWriteBufferSize s)] else [].

Definition send_delay_events (s : Server.t) (conn : Conn) : list Event :=
  if Server.socketSendDelay s then [EvSetNoDelay conn false] else [].

(** The state in which [Serve] enters the [for] loop: the listener is
    stored, the routes are printed if asked for, the router's dispatch
    stage is started and [s.accepting] is closed. *)
Definition Serve_loop_entry (addr address : string) (lis : Listener)
    (st : State) : State :=
  {| srv := with_accepting ChanClosed (with_Listener (Some lis) (srv st));
     heap := heap st; registry := registry st;
     trace := trace st ++
       [EvResolveTCPAddr addr; EvListenTCP address] ++
       (if Server.printRoutes (srv st)
        then [EvPrintHandlers ("tcp://" +:+ lis_Addr lis)] else []) ++
       [EvGo Task_consumeRequest; EvCloseChan ch_accepting] |}.

(** The state of the loop after the turns [turns], when each of them
    ended with the loop going on. *)
Fixpoint loop_continues (turns : list AcceptTurn) (st : State)
    : option State :=
  match turns with
  | [] => Some st
  | t :: rest =>
      match acceptLoop_body t st with
      | (Returns Continue, st') => loop_continues rest st'
      | _ => None
      end
  end.

(** That state, or the state at the start when the loop did not go on
    that far. *)
Definition state_after (turns : list AcceptTurn) (st : State) : State :=
  default st (loop_continues turns st).

(** ** handleConn *)

(** The Session [handleConn] builds for [conn]. *)
Definition new_session (s : Server.t) (id : string) (conn : Conn) : Session :=
  {| sess_id := id; sess_conn := conn;
     sess_Packer := Server.Packer s; sess_Codec := Server.Codec s;
     sess_respQueueSize := Server.respQueueSize s;
     sess_closed := ChanOpen; sess_connClosed := false |}.

(** The first five statements of [handleConn], up to the receive on the
    closed channel. *)
Definition session_created_events (s : Server.t) (id : string) (conn : Conn)
    (sess : nat) : list Event :=
  [EvNewSession conn sess; EvSessionsAdd id sess] ++
  match Server.OnSessionCreate s with
  | Some h => [EvGo (Task_OnSessionCreate h sess)]
  | None => []
  end ++
  [EvGo (Task_readInbound sess (Server.readTimeout s));
   EvGo (Task_writeOutbound sess (Server.writeTimeout s)
           (Server.writeAttemptTimes s))].

(** The events by which [handleConn] takes the session out of the
    registry and invokes the session-closed hook. *)
Definition is_close_event (ev : Event) : bool :=
  match ev with
  | EvSessionsRemove _ => true
  | EvGo (Task_OnSessionClose _ _) => true
  | _ => false
  end.

(** A trace without any of them. *)
Definition no_close_event (tr : list Event) : Prop :=
  Forall (λ ev, is_close_event ev = false) tr.

(** The local variable [sess] of the goroutine. *)
Definition hc_sess (pc : hc_pc) : option nat :=
  match pc with
  | hc_newSession | hc_return => None
  | hc_Add sess | hc_OnSessionCreate sess | hc_go_readInbound sess
  | hc_go_writeOutbound sess | hc_recv_closed sess | hc_Remove sess
  | hc_OnSessionClose sess | hc_conn_Close sess => Some sess
  end.

(** The session a goroutine of [handleConn] created, read off its trace. *)
Definition created_session (tr : list Event) : option nat :=
  match tr with
  | EvNewSession _ sess :: _ => Some sess
  | _ => None
  end.

Definition closed_in (st : State) (sess : nat) : Prop :=
  ∃ x, heap st !! sess = Some x ∧ sess_closed x = ChanClosed.

Definition pending_in (st : State) (sess : nat) : Prop :=
  ∃ x, heap st !! sess = Some x ∧ sess_closed x = ChanOpen.

(** What the other goroutines (the session's two tasks, [Stop], other
    connections, user code) may do between two statements of this
    [handleConn]: anything, except that a Session stays allocated and a
    closed signal that has fired stays fired.  The trace is that of this
    goroutine, so they leave it alone. *)
Definition interference (st st' : State) : Prop :=
  trace st' = trace st ∧
  ∀ sess x, heap st !! sess = Some x →
    ∃ x', heap st' !! sess = Some x' ∧
          (sess_closed x = ChanClosed → sess_closed x' = ChanClosed).

(** One move of the system: the goroutine executes its next statement,
    or the others interfere. *)
Inductive hc_sched (id : string) (conn : Conn)
    : hc_pc * State → hc_pc * State → Prop :=
| sched_statement pc st pc' st' :
    handleConn_step id conn pc st = (Returns pc', st') →
    hc_sched id conn (pc, st) (pc', st')
| sched_interference pc st st' :
    interference st st' →
    hc_sched id conn (pc, st) (pc, st').

(** Another goroutine calls [Close] on a session. *)
Definition closed_by_other (sess : nat) (st : State) : State :=
  {| srv := srv st; heap := alter Session_closed_fired sess (heap st);
     registry := registry st; trace := trace st |}.

(** What holds of the goroutine at each of its statements: before the
    receive it has created its session and has neither removed it nor
    invoked the hook; after the receive the closed signal of its
    session has fired. *)
Definition hc_inv (pc : hc_pc) (st : State) : Prop :=
  match pc with
  | hc_newSession => trace st = []
  | hc_Add sess | hc_OnSessionCreate sess | hc_go_readInbound sess
  | hc_go_writeOutbound sess | hc_recv_closed sess =>
      created_session (trace st) = Some sess ∧
      is_Some (heap st !! sess) ∧
      no_close_event (trace st)
  | hc_Remove sess | hc_OnSessionClose sess | hc_conn_Close sess =>
      created_session (trace st) = Some sess ∧ closed_in st sess
  | hc_return =>
      ∃ sess, created_session (trace st) = Some sess ∧ closed_in st sess
  end.

(** ** Concrete options, servers, connections and runs *)

Definition opt_zero : ServerOption.t :=
  ServerOption.mk 0 0 false 0 0 None None 0 0 false 0.

Definition opt_negative : ServerOption.t :=
  ServerOption.mk 0 0 false 0 0 None None (-1) (-7) false (-3).

Definition opt_positive : ServerOption.t :=
  ServerOption.mk 4096 0 true 0 0 (Some (UserPacker 1)) None 16 32 true 3.

Definition demo_conn (n : nat) : Conn :=
  {| conn_id := n; conn_is_tcp := true; conn_SetReadBuffer := None;
     conn_SetWriteBuffer := None; conn_SetNoDelay := None;
     conn_Close := None |}.

Definition demo_session (id : string) (n : nat) : Session :=
  {| sess_id := id; sess_conn := demo_conn n;
     sess_Packer := Some DefaultPacker;
     sess_Codec := None; sess_respQueueSize := 1024;
     sess_closed := ChanOpen; sess_connClosed := false |}.

Definition demo_listener : Listener :=
  {| lis_Addr := "127.0.0.1:8888";
     lis_Close := Some (PlainError "use of closed network connection") |}.

(** A server with a listener whose [Close] fails and two sessions in the
    registry. *)
Definition demo_server : Server.t :=
  with_Listener (Some demo_listener) (NewServer opt_negative).2.

Definition demo_running : State :=
  {| srv := demo_server;
     heap := {[ 0%nat := demo_session "a" 10; 1%nat := demo_session "b" 11 ]};
     registry := {[ "a" := 0%nat; "b" := 1%nat ]};
     trace := [] |}.

Definition fresh_server : State := initial (NewServer opt_positive).2.

Definition env_bad_address : ServeEnv :=
  {| env_ResolveTCPAddr :=
       inr (PlainError "address x: missing port in address");
     env_ListenTCP := inl demo_listener;
     env_turns := [] |}.

Definition env_port_in_use : ServeEnv :=
  {| env_ResolveTCPAddr := inl "127.0.0.1:8888";
     env_ListenTCP :=
       inr (PlainError
              "listen tcp 127.0.0.1:8888: bind: address already in use");
     env_turns := [] |}.

Definition turn_error (err : error_value) (stopped_meanwhile : bool)
    : AcceptTurn :=
  {| accepted := inr err; stopped_meanwhile := stopped_meanwhile |}.

Definition turn_conn (conn : Conn) : AcceptTurn :=
  {| accepted := inl conn; stopped_meanwhile := false |}.

Definition closed_listener_error : error_value :=
  NetError "accept tcp 127.0.0.1:8888: use of closed network connection" false.

Definition too_many_files_error : error_value :=
  NetError "accept tcp 127.0.0.1:8888: accept4: too many open files" true.

Definition refused_error : error_value :=
  PlainError "accept tcp 127.0.0.1:8888: accept4: invalid argument".

Definition env_listening (turns : list AcceptTurn) : ServeEnv :=
  {| env_ResolveTCPAddr := inl "127.0.0.1:8888";
     env_ListenTCP := inl demo_listener;
     env_turns := turns |}.

Definition demo_turns : list AcceptTurn :=
  [turn_conn (demo_conn 1); turn_error too_many_files_error false;
   turn_error refused_error false; turn_conn (demo_conn 2)].

Definition demo_entry : State :=
  Serve_loop_entry "127.0.0.1:8888" "127.0.0.1:8888" demo_listener
    fresh_server.

Definition conn_read_buffer_fails : Conn :=
  {| conn_id := 7; conn_is_tcp := true;
     conn_SetReadBuffer := Some (PlainError "setsockopt: bad file descriptor");
     conn_SetWriteBuffer := None; conn_SetNoDelay := None;
     conn_Close := None |}.

Definition conn_no_delay_fails : Conn :=
  {| conn_id := 8; conn_is_tcp := true;
     conn_SetReadBuffer := None; conn_SetWriteBuffer := None;
     conn_SetNoDelay := Some (PlainError "setsockopt: invalid argument");
     conn_Close := None |}.

Definition env_read_buffer_fails : ServeEnv :=
  env_listening [turn_conn (demo_conn 1); turn_conn conn_read_buffer_fails;
                 turn_conn (demo_conn 2)].

Definition env_no_delay_fails : ServeEnv :=
  env_listening [turn_conn conn_no_delay_fails; turn_conn (demo_conn 2)].

(** A listening server with both hooks set. *)
Definition hooked_entry : State :=
  {| srv := with_hooks (Some (UserHook 1)) (Some (UserHook 2))
              (srv demo_entry);
     heap := ∅; registry := ∅; trace := [] |}.

(** A run: the five statements up to the receive, another goroutine
    closes the session, and three statements more. *)
Definition hc_demo_waiting : State :=
  (handleConn_steps 5 "s1" (demo_conn 1) hc_newSession hooked_entry).2.

Definition hc_demo_closed : State :=
  (handleConn_steps 3 "s1" (demo_conn 1) (hc_recv_closed 0)
     (closed_by_other 0 hc_demo_waiting)).2.

(** ** What the accept loop does and does not do *)

(** The connections handed to [handleConn], in the order of the [go]
    statements that hand them over. *)
Definition handled (tr : list Event) : list Conn :=
  omap (λ ev, match ev with
              | EvGo (Task_handleConn conn) => Some conn
              | _ => None
              end) tr.

(** The actions of [Serve] before the loop, and those of the loop. *)
Definition is_startup_event (ev : Event) : bool :=
  match ev with
  | EvResolveTCPAddr _ | EvListenTCP _ | EvPrintHandlers _
  | EvGo Task_consumeRequest | EvCloseChan ch_accepting => true
  | _ => false
  end.

Definition is_loop_event (ev : Event) : bool :=
  match ev with
  | EvAccept | EvSleep _ | EvSetReadBuffer _ _ | EvSetWriteBuffer _ _
  | EvSetNoDelay _ _ | EvGo (Task_handleConn _)
  | EvTracef LogAcceptLoopStopped | EvErrorf (LogAcceptRetry _ _) => true
  | _ => false
  end.

(** What the loop does on a temporary error of [Accept]. *)
Definition retry_events (err : error_value) : list Event :=
  [EvAccept; EvErrorf (LogAcceptRetry err tempErrDelay); EvSleep tempErrDelay].

(** ** The order of the actions of handleConn *)

(** The place of an action in the text of [handleConn]; 0 for what
    [handleConn] never does. *)
Definition ev_rank (ev : Event) : nat :=
  match ev with
  | EvNewSession _ _ => 1
  | EvSessionsAdd _ _ => 2
  | EvGo (Task_OnSessionCreate _ _) => 3
  | EvGo (Task_readInbound _ _) => 4
  | EvGo (Task_writeOutbound _ _ _) => 5
  | EvRecvClosed _ => 6
  | EvSessionsRemove _ => 7
  | EvGo (Task_OnSessionClose _ _) => 8
  | EvConnClose _ => 9
  | EvErrorf (LogConnCloseErr _) => 10
  | _ => 0
  end.

Definition program_order (a b : Event) : Prop := (ev_rank a < ev_rank b)%nat.

(** The place of the statement the goroutine is at. *)
Definition pc_rank (pc : hc_pc) : nat :=
  match pc with
  | hc_newSession => 1
  | hc_Add _ => 2
  | hc_OnSessionCreate _ => 3
  | hc_go_readInbound _ => 4
  | hc_go_writeOutbound _ => 5
  | hc_recv_closed _ => 6
  | hc_Remove _ => 7
  | hc_OnSessionClose _ => 8
  | hc_conn_Close _ => 9
  | hc_return => 11
  end.

(** The actions taken so far all lie before the statement the goroutine
    is at, and they were taken in the order of the text. *)
Definition hc_order (pc : hc_pc) (st : State) : Prop :=
  Forall (λ ev, (0 < ev_rank ev < pc_rank pc)%nat) (trace st) ∧
  StronglySorted program_order (trace st).

(** The statements of [handleConn] after the receive on the closed
    channel. *)
Definition session_closed_events (s : Server.t) (id : string) (conn : Conn)
    (sess : nat) : list Event :=
  [EvRecvClosed sess; EvSessionsRemove id] ++
  match Server.OnSessionClose s with
  | Some h => [EvGo (Task_OnSessionClose h sess)]
  | None => []
  end ++
  [EvConnClose conn] ++
  match conn_Close conn with
  | Some err => [EvErrorf (LogConnCloseErr err)]
  | None => []
  end.

(** ** The broadcast example server (examples/tcp/broadcast/server)

    Its session manager and its handler of the broadcast request.  The
    handler and the two hooks see a session through its interface
    only. *)
Module Broadcast.

(** Modelled from the spec: the identifier of a Session ([SetID], [ID])
    is a value of the empty interface.  The example stores [int64]
    values; a value of another dynamic type is known by which one it is
    and by how the verb "%d" prints it. *)
Inductive ID : Type :=
| ID_int64 (n : Z)
| ID_other (tag : nat) (as_d : string).

#[global] Instance ID_eq_dec : EqDecision ID.
Proof. solve_decision. Defined.

(** [id.(int64)]. *)
Definition as_int64 (id : ID) : option Z :=
  match id with
  | ID_int64 n => Some n
  | ID_other _ _ => None
  end.

(** The message ids of package common. *)
Inductive MsgID : Type := MsgIdBroadCastReq | MsgIdBroadCastAck.

#[global] Instance MsgID_eq_dec : EqDecision MsgID.
Proof. solve_decision. Defined.

Record Entry : Type := mkEntry {
  entry_ID : MsgID;
  entry_Data : string;
}.

#[global] Instance Entry_eq_dec : EqDecision Entry.
Proof. solve_decision. Defined.

Record SessionManager : Type := mkSessionManager {
  nextId : Z;
  storage : gmap Z nat;
}.

(** The manager and the identifier each session has at the moment. *)
Record World : Type := mkWorld {
  sessions : SessionManager;
  ids : nat → ID;
}.

(** [sess.SetID(id)]: the identifiers after it. *)
Definition SetID (sess : nat) (id : ID) (ids : nat → ID) : nat → ID :=
  λ s, if decide (s = sess) then id else ids s.

(** [init()]. *)
Definition init : SessionManager := {| nextId := 1; storage := ∅ |}.

(** The hook stored in [s.OnSessionCreate]; it runs under the lock of
    the manager.  [nextId++] is on an [int64]. *)
Definition OnSessionCreate (sess : nat) (w : World) : result unit * World :=
  let ids1 := SetID sess (ID_int64 (nextId (sessions w))) (ids w) in
  let nextId1 := int_incr (nextId (sessions w)) in
  match as_int64 (ids1 sess) with
  | Some key =>
      (Returns (),
       {| sessions := {| nextId := nextId1;
                         storage := <[key := sess]> (storage (sessions w)) |};
          ids := ids1 |})
  | None =>
      (Panics InterfaceConversion,
       {| sessions := {| nextId := nextId1;
                         storage := storage (sessions w) |};
          ids := ids1 |})
  end.

(** The hook stored in [s.OnSessionClose]. *)
Definition OnSessionClose (sess : nat) (w : World) : result unit * World :=
  match as_int64 (ids w sess) with
  | Some key =>
      (Returns (),
       {| sessions := {| nextId := nextId (sessions w);
                         storage := delete key (storage (sessions w)) |};
          ids := ids w |})
  | None => (Panics InterfaceConversion, w)
  end.

(** The hook of creation, for one session after the other. *)
Definition create_all (ss : list nat) (w : World) : World :=
  foldl (λ w sess, (OnSessionCreate sess w).2) w ss.





(** Three sessions connect to a fresh manager. *)
Definition three_sessions : World :=
  create_all [10; 11; 12]%nat
    {| sessions := init; ids := λ _, ID_other 0 "" |}.

End Broadcast.

(** ** Tactics *)

(** Unfolding of the monad and of the state accessors. *)
Ltac unfold_M :=
  unfold mbind, mret, M_bind, M_ret, panic, block, get_srv, get_heap,
    get_registry, put_srv, put_heap, put_registry, emit in *.

Ltac norm_trace := repeat (rewrite <- app_assoc; simpl).

Ltac unfold_body :=
  unfold acceptLoop_body, isStopped, Listener_Accept, as_TCPConn,
    concurrent_close_stopped, add_events, after_Accept;
  unfold_M.

(** * Properties *)

(** ** The monad *)

Lemma M_bind_unfold {A B} (f : A → M B) (m : M A) (st : State) :
  (m ≫= f) st =
  match m st with
  | (Returns a, st') => f a st'
  | (Panics p, st') => (Panics p, st')
  | (Blocks, st') => (Blocks, st')
  end.
Proof. reflexivity. Qed.

Lemma M_ret_bind {A B} (f : A → M B) (a : A) (st : State) :
  (mret a ≫= f) st = f a st.
Proof. reflexivity. Qed.

Lemma panic_bind {A B} (f : A → M B) (p : PanicValue) (st : State) :
  (panic p ≫= f) st = (Panics p, st).
Proof. reflexivity. Qed.

Lemma block_bind {A B} (f : A → M B) (st : State) :
  (block ≫= f) st = (Blocks, st).
Proof. reflexivity. Qed.

Lemma emit_trace (ev : Event) (st : State) :
  emit ev st = (Returns (), add_events [ev] st).
Proof. reflexivity. Qed.

(** ** NewServer: the defaults *)

Example NewServer_negative_sizes :
  used_reqQueueSize opt_negative = 1024 ∧
  used_respQueueSize opt_negative = 1024 ∧
  used_writeAttemptTimes opt_negative = 1.
Proof. repeat split. Qed.

Example NewServer_positive_sizes :
  used_reqQueueSize opt_positive = 16 ∧
  used_respQueueSize opt_positive = 32 ∧
  used_writeAttemptTimes opt_positive = 3.
Proof. repeat split. Qed.

Lemma NewServer_options_seen_by_caller opt :
  (NewServer opt).1 = NewServer_defaults opt.
Proof. reflexivity. Qed.

(** C4, as stated, fails: a configured queue size of exactly 0 is kept,
    it is not replaced by the default (1024). *)
Lemma NewServer_zero_queue_size_kept :
  ServerOption.ReqQueueSize opt_zero <= 0 ∧
  ServerOption.RespQueueSize opt_zero <= 0 ∧
  used_reqQueueSize opt_zero = 0 ∧
  used_respQueueSize opt_zero = 0 ∧
  ¬ (∀ opt : ServerOption.t,
       (ServerOption.ReqQueueSize opt <= 0 →
        used_reqQueueSize opt = DefaultReqQueueSize) ∧
       (ServerOption.RespQueueSize opt <= 0 →
        used_respQueueSize opt = DefaultRespQueueSize)).
Proof.
  repeat split; try done.
  intros H. destruct (H opt_zero) as [Hreq _].
  specialize (Hreq ltac:(done)). discriminate Hreq.
Qed.

(** C4, amended: a request-queue size below 0 is replaced by the default
    request-queue size and a response-queue size below 0 by the default
    response-queue size; a size of 0 or more is used as configured. *)
Theorem NewServer_queue_sizes (opt : ServerOption.t) :
  (ServerOption.ReqQueueSize opt < 0 →
   used_reqQueueSize opt = DefaultReqQueueSize) ∧
  (ServerOption.RespQueueSize opt < 0 →
   used_respQueueSize opt = DefaultRespQueueSize) ∧
  (0 <= ServerOption.ReqQueueSize opt →
   used_reqQueueSize opt = ServerOption.ReqQueueSize opt) ∧
  (0 <= ServerOption.RespQueueSize opt →
   used_respQueueSize opt = ServerOption.RespQueueSize opt).
Proof.
  unfold used_reqQueueSize, used_respQueueSize, NewServer, NewServer_defaults.
  destruct opt as [rb wb sd rt wt pk cd rq rs np wa]; simpl.
  repeat split; intros H;
    repeat (case_decide; simpl in * ); try reflexivity; lia.
Qed.

Lemma NewServer_queue_sizes_witness :
  used_reqQueueSize opt_negative = DefaultReqQueueSize ∧
  used_respQueueSize opt_negative = DefaultRespQueueSize ∧
  used_reqQueueSize opt_positive = 16 ∧
  used_respQueueSize opt_positive = 32.
Proof.
  destruct (NewServer_queue_sizes opt_negative) as (Hq & Hs & _ & _).
  destruct (NewServer_queue_sizes opt_positive) as (_ & _ & Hq' & Hs').
  split; [apply Hq; reflexivity|].
  split; [apply Hs; reflexivity|].
  split; [apply Hq'; discriminate | apply Hs'; discriminate].
Defined.

(** C5: a configured write-attempt count of 0 or less gives the server
    the default count, which is 1; a positive count is used exactly as
    configured. *)
Theorem NewServer_writeAttemptTimes (opt : ServerOption.t) :
  DefaultWriteAttemptTimes = 1 ∧
  (ServerOption.WriteAttemptTimes opt <= 0 →
   used_writeAttemptTimes opt = 1) ∧
  (0 < ServerOption.WriteAttemptTimes opt →
   used_writeAttemptTimes opt = ServerOption.WriteAttemptTimes opt).
Proof.
  unfold used_writeAttemptTimes, NewServer, NewServer_defaults.
  destruct opt as [rb wb sd rt wt pk cd rq rs np wa]; simpl.
  repeat split; intros H;
    repeat (case_decide; simpl in * ); try reflexivity; lia.
Qed.

Lemma NewServer_writeAttemptTimes_witness :
  used_writeAttemptTimes opt_zero = 1 ∧
  used_writeAttemptTimes opt_negative = 1 ∧
  used_writeAttemptTimes opt_positive = 3.
Proof.
  destruct (NewServer_writeAttemptTimes opt_zero) as (_ & H0 & _).
  destruct (NewServer_writeAttemptTimes opt_negative) as (_ & Hn & _).
  destruct (NewServer_writeAttemptTimes opt_positive) as (_ & _ & Hp).
  split; [apply H0; discriminate|].
  split; [apply Hn; discriminate | apply Hp; reflexivity].
Defined.

(** ** Stop *)

Lemma Session_closed_fired_idemp x :
  Session_closed_fired (Session_closed_fired x) = Session_closed_fired x.
Proof. reflexivity. Qed.

Lemma closed_through_lookup_notin ps (h : gmap nat Session) p :
  p ∉ ps → closed_through ps h !! p = h !! p.
Proof.
  unfold closed_through. revert h.
  induction ps as [|q ps IH]; intros h Hnin; [done|].
  apply not_elem_of_cons in Hnin as [Hne Hnin]. simpl.
  rewrite IH by done. by rewrite lookup_alter_ne.
Qed.

Lemma closed_through_lookup_in ps (h : gmap nat Session) p :
  p ∈ ps → closed_through ps h !! p = Session_closed_fired <$> h !! p.
Proof.
  revert h.
  induction ps as [|q ps IH]; intros h Hin; [by apply elem_of_nil in Hin|].
  change (closed_through (q :: ps) h)
    with (closed_through ps (alter Session_closed_fired q h)).
  destruct (decide (p ∈ ps)) as [Hps|Hps].
  - rewrite IH by done. destruct (decide (q = p)) as [->|Hne].
    + rewrite lookup_alter_eq. destruct (h !! p); simpl; [|done].
      by rewrite Session_closed_fired_idemp.
    + by rewrite lookup_alter_ne.
  - apply elem_of_cons in Hin as [->|?]; [|done].
    rewrite closed_through_lookup_notin by done.
    by rewrite lookup_alter_eq.
Qed.

Lemma Range_Stop_callback entries closedNum st :
  Range_entries Stop_callback entries closedNum st =
  (Returns (Nat.iter (length entries) int_incr closedNum),
   {| srv := srv st;
      heap := closed_through entries.*2 (heap st);
      registry := registry st;
      trace := trace st ++ (EvSessionClose <$> entries.*2) |}).
Proof.
  revert closedNum st.
  induction entries as [|[id sess] entries IH]; intros closedNum st.
  - destruct st; simpl. unfold_M. by rewrite app_nil_r.
  - simpl. unfold Stop_callback, Session_Close. unfold_M. simpl.
    rewrite IH. simpl. rewrite <- app_assoc. simpl.
    by rewrite Nat.iter_swap.
Qed.

Lemma Stop_open st :
  Server.stopped (srv st) = ChanOpen →
  Stop st =
  (match Server.Listener (srv st) with
   | Some lis => Returns (lis_Close lis)
   | None => Panics NilPointerDereference
   end, Stop_state st).
Proof.
  intros Hopen. unfold Stop, Sessions_Range.
  change (λ (_ : string) (sess : nat) (closedNum : Z),
            Session_Close sess ;; mret (int_incr closedNum, true))
    with Stop_callback.
  unfold close_chan, router_stop, Listener_Close, Stop_state, Stop_events,
    Stop_closedNum, Stop_sessions.
  destruct st as [s h r tr]. simpl in Hopen. unfold_M. simpl.
  rewrite Hopen. simpl. rewrite Range_Stop_callback. simpl.
  destruct s as [lis ? ? ? ? ? ? ? ? ? ? ? ? ? ? ?]; simpl.
  destruct lis as [lis|]; simpl;
    repeat (rewrite <- ?app_assoc; simpl); reflexivity.
Qed.

Lemma Stop_closed st :
  Server.stopped (srv st) = ChanClosed →
  Stop st = (Panics CloseOfClosedChannel, st).
Proof.
  intros Hclosed. unfold Stop, close_chan. unfold_M. simpl.
  by rewrite Hclosed.
Qed.

Lemma Stop_leaves_stopped_closed st :
  Server.stopped (srv (Stop st).2) = ChanClosed.
Proof.
  destruct (Server.stopped (srv st)) eqn:Hs.
  - by rewrite Stop_open.
  - by rewrite Stop_closed.
Qed.

Lemma registry_in_Stop_sessions st id sess :
  registry st !! id = Some sess → sess ∈ Stop_sessions st.
Proof.
  intros H. unfold Stop_sessions. apply list_elem_of_fmap.
  exists (id, sess). split; [done|]. by apply elem_of_map_to_list.
Qed.

(** C1: on a server whose stopped channel is open and whose listener is
    set, Stop takes its steps in this order: it closes the stopped
    channel, calls Close on every session of the registry, stops the
    router, closes the listener; it returns what closing the listener
    answers; when it returns, every registered session has been closed
    and the router is stopped. *)
Theorem Stop_shutdown_order (st : State) (lis : Listener) :
  Server.stopped (srv st) = ChanOpen →
  Server.Listener (srv st) = Some lis →
  ∃ st',
    Stop st = (Returns (lis_Close lis), st') ∧
    trace st' =
      trace st ++ [EvCloseChan ch_stopped] ++
      (EvSessionClose <$> Stop_sessions st) ++
      [EvTracef (LogSessionsClosed (Stop_closedNum st));
       EvRouterStop; EvListenerClose] ∧
    (∀ id sess, registry st !! id = Some sess →
       sess ∈ Stop_sessions st ∧
       heap st' !! sess = Session_closed_fired <$> heap st !! sess) ∧
    Server.stopped (srv st') = ChanClosed ∧
    routerStopped (Server.router (srv st')) = true.
Proof.
  intros Hopen Hlis. exists (Stop_state st).
  rewrite Stop_open by done. rewrite Hlis.
  split; [done|]. split.
  { simpl. unfold Stop_events. by rewrite Hlis. }
  split; [|done].
  intros id sess Hreg.
  pose proof (registry_in_Stop_sessions _ _ _ Hreg) as Hin.
  split; [done|]. simpl. by apply closed_through_lookup_in.
Qed.

Lemma Stop_shutdown_order_witness :
  ∃ st',
    Stop demo_running =
      (Returns (Some (PlainError "use of closed network connection")), st') ∧
    trace st' =
      [EvCloseChan ch_stopped; EvSessionClose 0; EvSessionClose 1;
       EvTracef (LogSessionsClosed 2); EvRouterStop; EvListenerClose] ∧
    (sess_closed <$> heap st' !! 0%nat) = Some ChanClosed ∧
    (sess_closed <$> heap st' !! 1%nat) = Some ChanClosed.
Proof.
  destruct (Stop_shutdown_order demo_running demo_listener eq_refl eq_refl)
    as (st' & Hret & Htrace & Hsess & _ & _).
  exists st'. split; [exact Hret|]. split; [exact Htrace|].
  destruct (Hsess "a" 0%nat eq_refl) as [_ Ha].
  destruct (Hsess "b" 1%nat eq_refl) as [_ Hb].
  rewrite Ha, Hb. split; reflexivity.
Defined.

(** C9: whatever the first call of Stop did, the stopped channel is
    closed after it, and a second call of Stop on the same server panics
    on closing the closed channel, before it does anything else. *)
Theorem Stop_twice_panics (st : State) :
  Server.stopped (srv (Stop st).2) = ChanClosed ∧
  Stop (Stop st).2 = (Panics CloseOfClosedChannel, (Stop st).2).
Proof.
  split; [apply Stop_leaves_stopped_closed|].
  apply Stop_closed, Stop_leaves_stopped_closed.
Qed.

Example Stop_twice_demo :
  (Stop demo_running).1 =
    Returns (Some (PlainError "use of closed network connection")) ∧
  (Stop (Stop demo_running).2).1 = Panics CloseOfClosedChannel ∧
  trace (Stop (Stop demo_running).2).2 = trace (Stop demo_running).2.
Proof. vm_compute. done. Qed.

(** ** The accept loop, branch by branch *)

Lemma body_stopped_at_top t st :
  Server.stopped (srv st) = ChanClosed →
  acceptLoop_body t st =
  (Returns (Return (Some ErrServerStopped)),
   add_events [EvTracef LogAcceptLoopStopped] st).
Proof.
  intros Hs. unfold_body. simpl. by rewrite Hs.
Qed.

Lemma body_nil_Listener t st :
  Server.stopped (srv st) = ChanOpen →
  Server.Listener (srv st) = None →
  acceptLoop_body t st = (Panics NilPointerDereference, st).
Proof.
  intros Hs Hl. unfold_body. simpl. by rewrite Hs, Hl.
Qed.

Lemma body_error_stopped_meanwhile t st lis err :
  Server.stopped (srv st) = ChanOpen →
  Server.Listener (srv st) = Some lis →
  accepted t = inr err →
  stopped_meanwhile t = true →
  acceptLoop_body t st =
  (Returns (Return (Some ErrServerStopped)),
   add_events [EvTracef LogAcceptLoopStopped] (after_Accept t st)).
Proof.
  intros Hs Hl Ha Hm. unfold_body. simpl.
  rewrite Hs, Hl, Ha, Hm. simpl. by norm_trace.
Qed.

Lemma body_error_not_stopped t st lis err :
  Server.stopped (srv st) = ChanOpen →
  Server.Listener (srv st) = Some lis →
  accepted t = inr err →
  stopped_meanwhile t = false →
  acceptLoop_body t st =
  if isTemporary err then
    (Returns Continue,
     add_events [EvErrorf (LogAcceptRetry err tempErrDelay);
                 EvSleep tempErrDelay] (after_Accept t st))
  else
    (Returns (Return (Some (Errorf ("accept err: " +:+ Error err)))),
     after_Accept t st).
Proof.
  intros Hs Hl Ha Hm. unfold_body. simpl.
  rewrite Hs, Hl, Ha, Hm. simpl. rewrite Hs.
  destruct (isTemporary err); simpl; [by norm_trace|].
  by destruct st.
Qed.

Lemma body_accepted t st lis conn :
  Server.stopped (srv st) = ChanOpen →
  Server.Listener (srv st) = Some lis →
  accepted t = inl conn →
  conn_is_tcp conn = true →
  acceptLoop_body t st =
  match socket_options (srv st) conn with
  | (evs, Some err) =>
      (Returns (Return (Some err)), add_events evs (after_Accept t st))
  | (evs, None) =>
      (Returns Continue,
       add_events (evs ++ [EvGo (Task_handleConn conn)]) (after_Accept t st))
  end.
Proof.
  intros Hs Hl Ha Htcp. unfold socket_options. unfold_body. simpl.
  rewrite Hs, Hl, Ha. simpl.
  destruct st as [s h r tr]; simpl in *.
  destruct (stopped_meanwhile t); simpl;
    repeat case_decide; simpl; rewrite ?Htcp; simpl;
    destruct (conn_SetReadBuffer conn); simpl; try (norm_trace; reflexivity);
    rewrite ?Htcp; simpl;
    destruct (conn_SetWriteBuffer conn); simpl; try (norm_trace; reflexivity);
    destruct (Server.socketSendDelay s); simpl; rewrite ?Htcp; simpl;
    destruct (conn_SetNoDelay conn); simpl; norm_trace; reflexivity.
Qed.

(** A connection of another dynamic type is fine as long as no setter
    is configured, and makes the type assertion panic otherwise. *)
Example body_accepted_not_TCPConn :
  let conn := {| conn_id := 3; conn_is_tcp := false;
                 conn_SetReadBuffer := None; conn_SetWriteBuffer := None;
                 conn_SetNoDelay := None; conn_Close := None |} in
  (acceptLoop_body (turn_conn conn) demo_running).1 = Returns Continue ∧
  (acceptLoop_body (turn_conn conn) demo_entry).1 =
    Panics InterfaceConversion.
Proof. by vm_compute. Qed.

(** The loop body writes no field of the server; the only change it can
    see is the stopped channel being closed under it. *)
Lemma body_srv t st :
  srv (acceptLoop_body t st).2 = srv st ∨
  srv (acceptLoop_body t st).2 = with_stopped ChanClosed (srv st).
Proof.
  unfold_body. destruct st as [s h r tr]. simpl.
  destruct (Server.stopped s) eqn:Hs; simpl; [|by left].
  destruct (Server.Listener s); simpl; [|by left].
  destruct t as [[conn|err] [|]]; simpl; rewrite ?Hs; simpl.
  - right.
    repeat (case_decide; simpl); destruct (conn_is_tcp conn); simpl;
      try reflexivity;
      destruct (conn_SetReadBuffer conn); simpl; try reflexivity;
      destruct (conn_SetWriteBuffer conn); simpl; try reflexivity;
      destruct (Server.socketSendDelay s); simpl; try reflexivity;
      destruct (conn_SetNoDelay conn); reflexivity.
  - left.
    repeat (case_decide; simpl); destruct (conn_is_tcp conn); simpl;
      try reflexivity;
      destruct (conn_SetReadBuffer conn); simpl; try reflexivity;
      destruct (conn_SetWriteBuffer conn); simpl; try reflexivity;
      destruct (Server.socketSendDelay s); simpl; try reflexivity;
      destruct (conn_SetNoDelay conn); reflexivity.
  - by right.
  - left. by destruct (isTemporary err).
Qed.

Lemma body_Listener t st :
  Server.Listener (srv (acceptLoop_body t st).2) = Server.Listener (srv st).
Proof. by destruct (body_srv t st) as [-> | ->]. Qed.

(** ** Serve *)

Lemma Serve_listening addr env st address lis :
  env_ResolveTCPAddr env = inl address →
  env_ListenTCP env = inl lis →
  Server.accepting (srv st) = ChanOpen →
  Serve addr env st =
  acceptLoop_for (env_turns env) (Serve_loop_entry addr address lis st).
Proof.
  intros Hr Hl Ha. unfold Serve, acceptLoop, close_chan, Serve_loop_entry.
  unfold_M. simpl. rewrite Hr. simpl. rewrite Hl. simpl.
  destruct st as [s h r tr]; simpl in *.
  destruct (Server.printRoutes s) eqn:Hp; simpl; rewrite Ha; simpl;
    norm_trace; reflexivity.
Qed.

Lemma acceptLoop_for_app before turns st st1 :
  loop_continues before st = Some st1 →
  acceptLoop_for (before ++ turns) st = acceptLoop_for turns st1.
Proof.
  revert st. induction before as [|t before IH]; intros st Hc; simpl in *.
  - by injection Hc as ->.
  - unfold mbind, M_bind at 1.
    destruct (acceptLoop_body t st) as [[[|err]|p|] st']; try done.
    by apply IH.
Qed.

Lemma acceptLoop_for_cons t rest st :
  acceptLoop_for (t :: rest) st =
  match acceptLoop_body t st with
  | (Returns Continue, st') => acceptLoop_for rest st'
  | (Returns (Return err), st') => (Returns err, st')
  | (Panics p, st') => (Panics p, st')
  | (Blocks, st') => (Blocks, st')
  end.
Proof.
  simpl. unfold mbind, M_bind at 1.
  by destruct (acceptLoop_body t st) as [[[|err]|p|] st'].
Qed.

Lemma loop_continues_Listener turns st st1 :
  loop_continues turns st = Some st1 →
  Server.Listener (srv st1) = Server.Listener (srv st).
Proof.
  revert st. induction turns as [|t turns IH]; intros st Hc; simpl in Hc.
  - by injection Hc as <-.
  - pose proof (body_Listener t st) as Hb.
    destruct (acceptLoop_body t st) as [[[|?]|?|] st']; try done.
    rewrite (IH _ Hc). exact Hb.
Qed.

(** C6: when the listen address does not resolve, or when the listening
    socket cannot be opened, Serve returns that very error at once: the
    one attempt is all it makes, the server is left as it was, the
    router's dispatch stage is not started and the accept loop is not
    entered. *)
Theorem Serve_startup_error (addr : string) (env : ServeEnv) (st : State)
    (err : error_value) :
  (env_ResolveTCPAddr env = inr err →
   Serve addr env st =
   (Returns (Some err), add_events [EvResolveTCPAddr addr] st)) ∧
  (∀ address,
     env_ResolveTCPAddr env = inl address →
     env_ListenTCP env = inr err →
     Serve addr env st =
     (Returns (Some err),
      add_events [EvResolveTCPAddr addr; EvListenTCP address] st)).
Proof.
  split.
  - intros Hr. unfold Serve, add_events. unfold_M. simpl. by rewrite Hr.
  - intros address Hr Hl. unfold Serve, add_events. unfold_M. simpl.
    rewrite Hr. simpl. rewrite Hl. by norm_trace.
Qed.

Lemma Serve_startup_error_witness :
  Serve "x" env_bad_address fresh_server =
    (Returns (Some (PlainError "address x: missing port in address")),
     add_events [EvResolveTCPAddr "x"] fresh_server) ∧
  Serve "127.0.0.1:8888" env_port_in_use fresh_server =
    (Returns (Some (PlainError
       "listen tcp 127.0.0.1:8888: bind: address already in use")),
     add_events [EvResolveTCPAddr "127.0.0.1:8888";
                 EvListenTCP "127.0.0.1:8888"] fresh_server).
Proof.
  split.
  - apply (Serve_startup_error "x" env_bad_address fresh_server). reflexivity.
  - apply (Serve_startup_error "127.0.0.1:8888" env_port_in_use fresh_server);
      reflexivity.
Defined.

(** ** Errors of Accept *)

(** C3, as stated, fails: when the server has been stopped by the time
    Accept answers, a non-transient error of Accept is not what Serve
    returns (it returns ErrServerStopped), and after a temporary error
    the loop neither sleeps nor calls Accept again. *)
Lemma Serve_accept_error_when_stopped :
  ¬ (∀ (st : State) (t : AcceptTurn) (rest : list AcceptTurn)
       (lis : Listener) (err : error_value),
       Server.stopped (srv st) = ChanOpen →
       Server.Listener (srv st) = Some lis →
       accepted t = inr err →
       if isTemporary err
       then ∃ st', acceptLoop_body t st = (Returns Continue, st') ∧
                   EvSleep tempErrDelay ∈ trace st'
       else ∃ st', acceptLoop_for (t :: rest) st =
                   (Returns (Some (Errorf ("accept err: " +:+ Error err))),
                    st')) ∧
  isTemporary closed_listener_error = false ∧
  (Serve "127.0.0.1:8888"
     (env_listening [turn_error closed_listener_error true]) fresh_server).1
    = Returns (Some ErrServerStopped) ∧
  isTemporary too_many_files_error = true ∧
  (let run := Serve "127.0.0.1:8888"
       (env_listening [turn_error too_many_files_error true;
                       turn_conn (demo_conn 1)]) fresh_server in
   run.1 = Returns (Some ErrServerStopped) ∧
   (EvSleep tempErrDelay ∉ trace run.2) ∧
   length (filter (λ ev, ev = EvAccept) (trace run.2)) = 1%nat).
Proof.
  split.
  { intros Hclaim.
    specialize (Hclaim demo_entry (turn_error closed_listener_error true) []
                  demo_listener closed_listener_error
                  eq_refl eq_refl eq_refl).
    simpl in Hclaim. destruct Hclaim as [st' Hst'].
    vm_compute in Hst'. discriminate Hst'. }
  split; [done|]. split; [by vm_compute|].
  split; [done|]. split; [by vm_compute|].
  split; [|by vm_compute].
  vm_compute. intros H. repeat (apply elem_of_cons in H as [H|H]; [done|]).
  by apply elem_of_nil in H.
Qed.

(** A pass of the loop inside [Serve]: the address resolves, the
    listener opens, the turns [before] each end with the loop going on,
    and the pass of turn [t] starts with the stopped channel open. *)
Section ServePass.

Variables (addr address : string) (env : ServeEnv) (lis : Listener).
Variables (st st1 : State) (before rest : list AcceptTurn) (t : AcceptTurn).

Hypothesis Hresolve : env_ResolveTCPAddr env = inl address.
Hypothesis Hlisten : env_ListenTCP env = inl lis.
Hypothesis Haccepting : Server.accepting (srv st) = ChanOpen.
Hypothesis Hturns : env_turns env = before ++ t :: rest.
Hypothesis Hbefore :
  loop_continues before (Serve_loop_entry addr address lis st) = Some st1.
Hypothesis Hopen : Server.stopped (srv st1) = ChanOpen.

Lemma ServePass_Listener : Server.Listener (srv st1) = Some lis.
Proof using Hbefore. by rewrite (loop_continues_Listener _ _ _ Hbefore). Qed.

Lemma ServePass_Serve :
  Serve addr env st =
  match acceptLoop_body t st1 with
  | (Returns Continue, st') => acceptLoop_for rest st'
  | (Returns (Return err), st') => (Returns err, st')
  | (Panics p, st') => (Panics p, st')
  | (Blocks, st') => (Blocks, st')
  end.
Proof using Hresolve Hlisten Haccepting Hturns Hbefore.
  rewrite (Serve_listening _ _ _ _ _ Hresolve Hlisten Haccepting), Hturns.
  by rewrite (acceptLoop_for_app _ _ _ _ Hbefore), acceptLoop_for_cons.
Qed.

(** C3, amended: for every error Accept returns while the server has not
    been stopped, in whichever pass of the loop: after a temporary
    network error the loop logs it, sleeps for the fixed delay of 5ms
    and goes on with the next pass, which calls Accept again; after any
    other error the loop ends and Serve returns an error whose text is
    that of the Accept error after the prefix "accept err: ".  When the
    stopped channel has been closed by the time Accept returns the
    error, the loop ends and Serve returns ErrServerStopped, without a
    sleep and without another Accept. *)
Theorem Serve_accept_error (err : error_value) :
  accepted t = inr err →
  tempErrDelay = 5 * Millisecond ∧
  (stopped_meanwhile t = false → isTemporary err = true →
   acceptLoop_body t st1 =
     (Returns Continue,
      add_events [EvAccept; EvErrorf (LogAcceptRetry err tempErrDelay);
                  EvSleep tempErrDelay] st1) ∧
   Serve addr env st =
     acceptLoop_for rest
       (add_events [EvAccept; EvErrorf (LogAcceptRetry err tempErrDelay);
                    EvSleep tempErrDelay] st1)) ∧
  (stopped_meanwhile t = false → isTemporary err = false →
   Serve addr env st =
     (Returns (Some (Errorf ("accept err: " +:+ Error err))),
      add_events [EvAccept] st1)) ∧
  (stopped_meanwhile t = true →
   Serve addr env st =
     (Returns (Some ErrServerStopped),
      add_events [EvAccept; EvTracef LogAcceptLoopStopped]
        {| srv := with_stopped ChanClosed (srv st1); heap := heap st1;
           registry := registry st1; trace := trace st1 |})).
Proof using All.
  intros Herr. split; [done|].
  rewrite ServePass_Serve.
  assert (Hst : stopped_meanwhile t = false →
                after_Accept t st1 = add_events [EvAccept] st1).
  { intros Hm. unfold after_Accept, add_events. by rewrite Hm. }
  split; [|split].
  - intros Hm Htmp.
    rewrite (body_error_not_stopped _ _ _ _ Hopen ServePass_Listener Herr Hm).
    rewrite Htmp, (Hst Hm). unfold add_events; simpl. by norm_trace.
  - intros Hm Htmp.
    rewrite (body_error_not_stopped _ _ _ _ Hopen ServePass_Listener Herr Hm).
    by rewrite Htmp, (Hst Hm).
  - intros Hm.
    rewrite (body_error_stopped_meanwhile _ _ _ _
               Hopen ServePass_Listener Herr Hm).
    unfold after_Accept, add_events. rewrite Hm. simpl. by norm_trace.
Qed.

(** C10: when a configured socket option cannot be applied to an
    accepted connection (the read buffer, the write buffer, or the
    no-delay setting), the accept loop ends there and Serve returns the
    error of that setter, under a prefix that names it: the connection
    is not handled and Accept is not called again, whatever other
    connections are waiting. *)
Theorem Serve_socket_option_error (conn : Conn) (err : error_value) :
  accepted t = inl conn →
  conn_is_tcp conn = true →
  (0 < Server.socketReadBufferSize (srv st1) →
   conn_SetReadBuffer conn = Some err →
   Serve addr env st =
     (Returns (Some (Errorf ("conn set read buffer err: " +:+ Error err))),
      add_events (read_buffer_events (srv st1) conn) (after_Accept t st1))) ∧
  ((0 < Server.socketReadBufferSize (srv st1) →
    conn_SetReadBuffer conn = None) →
   0 < Server.socketWriteBufferSize (srv st1) →
   conn_SetWriteBuffer conn = Some err →
   Serve addr env st =
     (Returns (Some (Errorf ("conn set write buffer err: " +:+ Error err))),
      add_events (read_buffer_events (srv st1) conn ++
                  write_buffer_events (srv st1) conn)
        (after_Accept t st1))) ∧
  ((0 < Server.socketReadBufferSize (srv st1) →
    conn_SetReadBuffer conn = None) →
   (0 < Server.socketWriteBufferSize (srv st1) →
    conn_SetWriteBuffer conn = None) →
   Server.socketSendDelay (srv st1) = true →
   conn_SetNoDelay conn = Some err →
   Serve addr env st =
     (Returns (Some (Errorf ("conn set no delay err: " +:+ Error err))),
      add_events (read_buffer_events (srv st1) conn ++
                  write_buffer_events (srv st1) conn ++
                  send_delay_events (srv st1) conn)
        (after_Accept t st1))) ∧
  (EvGo (Task_handleConn conn) ∉
     read_buffer_events (srv st1) conn ++ write_buffer_events (srv st1) conn ++
     send_delay_events (srv st1) conn) ∧
  (EvAccept ∉
     read_buffer_events (srv st1) conn ++ write_buffer_events (srv st1) conn ++
     send_delay_events (srv st1) conn).
Proof using All.
  intros Hacc Htcp.
  rewrite ServePass_Serve.
  rewrite (body_accepted _ _ _ _ Hopen ServePass_Listener Hacc Htcp).
  unfold socket_options, read_buffer_events, write_buffer_events,
    send_delay_events.
  split; [|split; [|split; [|split]]].
  - intros Hrb Herr. rewrite decide_True by done. by rewrite Herr.
  - intros Hrb Hwb Herr.
    rewrite (decide_True (P := 0 < Server.socketWriteBufferSize _)) by done.
    rewrite Herr. case_decide; [by rewrite Hrb|done].
  - intros Hrb Hwb Hsd Herr. rewrite Hsd, Herr.
    repeat case_decide; rewrite ?Hrb, ?Hwb by done; done.
  - repeat case_decide; destruct (Server.socketSendDelay (srv st1)); simpl;
      intros Hin; repeat (apply elem_of_cons in Hin as [Hin|Hin]; [done|]);
      by apply elem_of_nil in Hin.
  - repeat case_decide; destruct (Server.socketSendDelay (srv st1)); simpl;
      intros Hin; repeat (apply elem_of_cons in Hin as [Hin|Hin]; [done|]);
      by apply elem_of_nil in Hin.
Qed.

End ServePass.

Lemma Serve_accept_error_witness :
  Serve "127.0.0.1:8888" (env_listening demo_turns) fresh_server =
    (Returns (Some (Errorf
       "accept err: accept tcp 127.0.0.1:8888: accept4: invalid argument")),
     add_events [EvAccept] (state_after (take 2 demo_turns) demo_entry)) ∧
  acceptLoop_body (turn_error too_many_files_error false)
      (state_after (take 1 demo_turns) demo_entry) =
    (Returns Continue,
     add_events [EvAccept;
                 EvErrorf (LogAcceptRetry too_many_files_error 5000000);
                 EvSleep 5000000]
       (state_after (take 1 demo_turns) demo_entry)).
Proof.
  split.
  - pose proof (Serve_accept_error
      "127.0.0.1:8888" "127.0.0.1:8888" (env_listening demo_turns)
      demo_listener fresh_server (state_after (take 2 demo_turns) demo_entry)
      (take 2 demo_turns) (drop 3 demo_turns)
      (turn_error refused_error false)
      eq_refl eq_refl eq_refl eq_refl ltac:(vm_compute; reflexivity) eq_refl
      refused_error eq_refl) as (_ & _ & Hfinal & _).
    exact (Hfinal eq_refl eq_refl).
  - pose proof (Serve_accept_error
      "127.0.0.1:8888" "127.0.0.1:8888" (env_listening demo_turns)
      demo_listener fresh_server (state_after (take 1 demo_turns) demo_entry)
      (take 1 demo_turns) (drop 2 demo_turns)
      (turn_error too_many_files_error false)
      eq_refl eq_refl eq_refl eq_refl ltac:(vm_compute; reflexivity) eq_refl
      too_many_files_error eq_refl) as (_ & Htemp & _).
    exact (proj1 (Htemp eq_refl eq_refl)).
Defined.

(** ** The accept loop after Stop *)

(** C8: once the stopped channel is closed, the accept loop returns the
    sentinel ErrServerStopped: at the check that opens each pass of the
    loop, and at the check after a failed Accept, whatever the error of
    Accept was (it is neither returned nor retried).  The stopped
    channel is closed after any call of Stop. *)
Theorem acceptLoop_returns_ErrServerStopped :
  (∀ (st : State) (turns : list AcceptTurn),
     Server.stopped (srv st) = ChanClosed →
     acceptLoop_for turns st =
       (Returns (Some ErrServerStopped),
        add_events [EvTracef LogAcceptLoopStopped] st)) ∧
  (∀ (st : State) (t : AcceptTurn) (rest : list AcceptTurn)
     (lis : Listener) (err : error_value),
     Server.stopped (srv st) = ChanOpen →
     Server.Listener (srv st) = Some lis →
     accepted t = inr err →
     stopped_meanwhile t = true →
     acceptLoop_for (t :: rest) st =
       (Returns (Some ErrServerStopped),
        add_events [EvTracef LogAcceptLoopStopped] (after_Accept t st))) ∧
  (∀ (st : State) (turns : list AcceptTurn),
     (acceptLoop_for turns (Stop st).2).1 = Returns (Some ErrServerStopped)) ∧
  (∀ err : error_value,
     ErrServerStopped ≠ Errorf ("accept err: " +:+ Error err)).
Proof.
  assert (Htop : ∀ (st : State) (turns : list AcceptTurn),
     Server.stopped (srv st) = ChanClosed →
     acceptLoop_for turns st =
       (Returns (Some ErrServerStopped),
        add_events [EvTracef LogAcceptLoopStopped] st)).
  { intros st [|t rest] Hs.
    - simpl. unfold isStopped, add_events. unfold_M. simpl. by rewrite Hs.
    - rewrite acceptLoop_for_cons. by rewrite body_stopped_at_top. }
  split; [exact Htop|]. split; [|split].
  - intros st t rest lis err Hs Hl Ha Hm.
    rewrite acceptLoop_for_cons.
    by rewrite (body_error_stopped_meanwhile _ _ _ _ Hs Hl Ha Hm).
  - intros st turns.
    by rewrite (Htop _ turns (Stop_leaves_stopped_closed st)).
  - done.
Qed.

Lemma acceptLoop_returns_ErrServerStopped_witness :
  acceptLoop_for demo_turns (Stop demo_running).2 =
    (Returns (Some ErrServerStopped),
     add_events [EvTracef LogAcceptLoopStopped] (Stop demo_running).2) ∧
  acceptLoop_for [turn_error closed_listener_error true] demo_running =
    (Returns (Some ErrServerStopped),
     add_events [EvTracef LogAcceptLoopStopped]
       (after_Accept (turn_error closed_listener_error true) demo_running)).
Proof.
  destruct acceptLoop_returns_ErrServerStopped as (Htop & Hafter & _ & _).
  split.
  - apply Htop. reflexivity.
  - apply (Hafter demo_running _ [] demo_listener closed_listener_error);
      reflexivity.
Defined.

(** ** Accepted connections *)

Lemma after_Accept_options t st :
  Server.socketReadBufferSize (srv (after_Accept t st)) =
    Server.socketReadBufferSize (srv st) ∧
  Server.socketWriteBufferSize (srv (after_Accept t st)) =
    Server.socketWriteBufferSize (srv st) ∧
  Server.socketSendDelay (srv (after_Accept t st)) =
    Server.socketSendDelay (srv st).
Proof. unfold after_Accept. by destruct (stopped_meanwhile t). Qed.

Lemma Serve_socket_option_error_witness :
  Serve "127.0.0.1:8888" env_read_buffer_fails fresh_server =
    (Returns (Some (Errorf
       "conn set read buffer err: setsockopt: bad file descriptor")),
     add_events [EvAccept; EvSetReadBuffer conn_read_buffer_fails 4096]
       (state_after [turn_conn (demo_conn 1)] demo_entry)) ∧
  Serve "127.0.0.1:8888" env_no_delay_fails fresh_server =
    (Returns (Some (Errorf
       "conn set no delay err: setsockopt: invalid argument")),
     add_events [EvAccept; EvSetReadBuffer conn_no_delay_fails 4096;
                 EvSetNoDelay conn_no_delay_fails false] demo_entry).
Proof.
  split.
  - pose proof (Serve_socket_option_error
      "127.0.0.1:8888" "127.0.0.1:8888" env_read_buffer_fails demo_listener
      fresh_server (state_after [turn_conn (demo_conn 1)] demo_entry)
      [turn_conn (demo_conn 1)] [turn_conn (demo_conn 2)]
      (turn_conn conn_read_buffer_fails)
      eq_refl eq_refl eq_refl eq_refl ltac:(vm_compute; reflexivity) eq_refl
      conn_read_buffer_fails (PlainError "setsockopt: bad file descriptor")
      eq_refl eq_refl) as (Hrb & _).
    rewrite Hrb by reflexivity. vm_compute. reflexivity.
  - pose proof (Serve_socket_option_error
      "127.0.0.1:8888" "127.0.0.1:8888" env_no_delay_fails demo_listener
      fresh_server demo_entry [] [turn_conn (demo_conn 2)]
      (turn_conn conn_no_delay_fails)
      eq_refl eq_refl eq_refl eq_refl eq_refl eq_refl
      conn_no_delay_fails (PlainError "setsockopt: invalid argument")
      eq_refl eq_refl) as (_ & _ & Hnd & _).
    rewrite Hnd.
    + vm_compute. reflexivity.
    + reflexivity.
    + intros H. vm_compute in H. discriminate H.
    + reflexivity.
    + reflexivity.
Defined.

Lemma handleConn_until_recv id conn st :
  let sess := fresh (dom (heap st)) in
  handleConn_steps 5 id conn hc_newSession st =
  (Returns (hc_recv_closed sess),
   {| srv := srv st;
      heap := <[sess := new_session (srv st) id conn]> (heap st);
      registry := <[id := sess]> (registry st);
      trace := trace st ++ session_created_events (srv st) id conn sess |}).
Proof.
  destruct st as [s h r tr]. simpl.
  unfold handleConn_step, newSession, Sessions_Add, Session_ID,
    session_created_events, new_session.
  unfold_M. simpl. rewrite lookup_insert_eq. simpl.
  destruct (Server.OnSessionCreate s); simpl; norm_trace; reflexivity.
Qed.

Lemma fresh_not_in_heap (h : gmap nat Session) : h !! fresh (dom h) = None.
Proof. apply not_elem_of_dom, is_fresh. Qed.

(** C7: for an accepted connection whose configured setters succeed, the
    loop calls SetReadBuffer only when the configured read buffer size
    is above 0, SetWriteBuffer only when the configured write buffer
    size is above 0, SetNoDelay(false) only when the send-delay flag is
    set, in this order, and then starts handleConn; handleConn builds
    the session, adds it to the registry, and starts the inbound task
    and then the outbound task. *)
Theorem accepted_connection_setup (st : State) (t : AcceptTurn)
    (lis : Listener) (conn : Conn) :
  Server.stopped (srv st) = ChanOpen →
  Server.Listener (srv st) = Some lis →
  accepted t = inl conn →
  conn_is_tcp conn = true →
  (0 < Server.socketReadBufferSize (srv st) →
   conn_SetReadBuffer conn = None) →
  (0 < Server.socketWriteBufferSize (srv st) →
   conn_SetWriteBuffer conn = None) →
  (Server.socketSendDelay (srv st) = true → conn_SetNoDelay conn = None) →
  acceptLoop_body t st =
    (Returns Continue,
     add_events
       ((if decide (0 < Server.socketReadBufferSize (srv st))
         then [EvSetReadBuffer conn (Server.socketReadBufferSize (srv st))]
         else []) ++
        (if decide (0 < Server.socketWriteBufferSize (srv st))
         then [EvSetWriteBuffer conn (Server.socketWriteBufferSize (srv st))]
         else []) ++
        (if Server.socketSendDelay (srv st)
         then [EvSetNoDelay conn false] else []) ++
        [EvGo (Task_handleConn conn)])
       (after_Accept t st)) ∧
  ∀ (id : string) (st2 : State),
    let sess := fresh (dom (heap st2)) in
    ∃ st3,
      handleConn_steps 5 id conn hc_newSession st2 =
        (Returns (hc_recv_closed sess), st3) ∧
      trace st3 =
        trace st2 ++
        [EvNewSession conn sess; EvSessionsAdd id sess] ++
        match Server.OnSessionCreate (srv st2) with
        | Some h => [EvGo (Task_OnSessionCreate h sess)]
        | None => []
        end ++
        [EvGo (Task_readInbound sess (Server.readTimeout (srv st2)));
         EvGo (Task_writeOutbound sess (Server.writeTimeout (srv st2))
                 (Server.writeAttemptTimes (srv st2)))] ∧
      heap st2 !! sess = None ∧
      heap st3 !! sess = Some (new_session (srv st2) id conn) ∧
      registry st3 !! id = Some sess.
Proof.
  intros Hopen Hlis Hacc Htcp Hrb Hwb Hsd. split.
  - rewrite (body_accepted _ _ _ _ Hopen Hlis Hacc Htcp).
    unfold socket_options.
    destruct (decide (0 < Server.socketReadBufferSize (srv st)));
      rewrite ?Hrb by done;
      destruct (decide (0 < Server.socketWriteBufferSize (srv st)));
      rewrite ?Hwb by done;
      destruct (Server.socketSendDelay (srv st));
      rewrite ?Hsd by done; simpl; norm_trace; reflexivity.
  - intros id st2 sess. eexists. split; [apply handleConn_until_recv|].
    simpl. split; [done|]. split; [apply fresh_not_in_heap|].
    split; apply lookup_insert_eq.
Qed.

Lemma accepted_connection_setup_witness :
  acceptLoop_body (turn_conn (demo_conn 1)) hooked_entry =
    (Returns Continue,
     add_events [EvSetReadBuffer (demo_conn 1) 4096;
                 EvSetNoDelay (demo_conn 1) false;
                 EvGo (Task_handleConn (demo_conn 1))]
       (after_Accept (turn_conn (demo_conn 1)) hooked_entry)) ∧
  ∃ st3,
    handleConn_steps 5 "s1" (demo_conn 1) hc_newSession hooked_entry =
      (Returns (hc_recv_closed 0), st3) ∧
    trace st3 =
      [EvNewSession (demo_conn 1) 0; EvSessionsAdd "s1" 0;
       EvGo (Task_OnSessionCreate (UserHook 1) 0);
       EvGo (Task_readInbound 0 0); EvGo (Task_writeOutbound 0 0 3)].
Proof.
  pose proof (accepted_connection_setup hooked_entry
    (turn_conn (demo_conn 1)) demo_listener (demo_conn 1)
    eq_refl eq_refl eq_refl eq_refl (λ _, eq_refl) (λ _, eq_refl)
    (λ _, eq_refl)) as [Hloop Hconn].
  split; [exact Hloop|].
  destruct (Hconn "s1" hooked_entry) as (st3 & Hsteps & Htrace & _).
  exists st3. split; [exact Hsteps | exact Htrace].
Defined.

(** ** handleConn among the other goroutines *)

Lemma closed_by_other_interference sess st :
  interference st (closed_by_other sess st).
Proof.
  split; [done|]. intros s x Hx. simpl.
  destruct (decide (sess = s)) as [->|Hne].
  - rewrite lookup_alter_eq, Hx. simpl. eauto.
  - rewrite lookup_alter_ne by done. eauto.
Qed.

(** The runs of one goroutine of [handleConn], for the connection [conn]
    and the identifier [id] its session is given. *)
Section HandleConnRun.

Variables (id : string) (conn : Conn).

Lemma handleConn_steps_sched n pc st pc' st' :
  handleConn_steps n id conn pc st = (Returns pc', st') →
  rtc (hc_sched id conn) (pc, st) (pc', st').
Proof.
  revert pc st. induction n as [|n IH]; intros pc st Hrun; simpl in Hrun.
  - unfold_M. injection Hrun as -> ->. apply rtc_refl.
  - rewrite M_bind_unfold in Hrun.
    destruct (handleConn_step id conn pc st) as [[pc1| |] st1] eqn:Hstep;
      try done.
    eapply rtc_l; [by apply sched_statement|]. by apply IH.
Qed.

Lemma created_session_app tr evs sess :
  created_session tr = Some sess → created_session (tr ++ evs) = Some sess.
Proof. by destruct tr as [|[] tr]. Qed.

Lemma no_close_event_app tr evs :
  no_close_event tr → no_close_event evs → no_close_event (tr ++ evs).
Proof. apply Forall_app_2. Qed.

Lemma hc_inv_interference pc st st' :
  interference st st' → hc_inv pc st → hc_inv pc st'.
Proof.
  intros [Htr Hheap] Hinv.
  assert (Hsome : ∀ sess, is_Some (heap st !! sess) →
                          is_Some (heap st' !! sess)).
  { intros sess [x Hx]. destruct (Hheap _ _ Hx) as (x' & Hx' & _). eauto. }
  assert (Hclosed : ∀ sess, closed_in st sess → closed_in st' sess).
  { intros sess (x & Hx & Hc). destruct (Hheap _ _ Hx) as (x' & Hx' & Hc').
    exists x'. auto. }
  destruct pc; simpl in *; rewrite Htr;
    try (destruct Hinv as (? & ? & ?); by auto);
    try (destruct Hinv as (? & ?); by auto).
  - done.
  - destruct Hinv as (sess & ? & ?). exists sess. auto.
Qed.

Lemma hc_inv_statement pc st pc' st' :
  hc_inv pc st →
  handleConn_step id conn pc st = (Returns pc', st') →
  hc_inv pc' st'.
Proof.
  intros Hinv Hstep. destruct st as [s h r tr].
  destruct pc; simpl in Hinv;
    unfold handleConn_step, newSession, Sessions_Add, Sessions_Remove,
      Session_ID, recv_closed in Hstep;
    unfold_M; simpl in Hstep.
  - injection Hstep as <- <-. simpl. subst tr. simpl.
    split; [done|]. split; [by rewrite lookup_insert_eq|].
    by repeat constructor.
  - destruct Hinv as (Hc & [x Hx] & Hn). rewrite Hx in Hstep.
    injection Hstep as <- <-. simpl.
    split; [by apply created_session_app|]. split; [eauto|].
    apply no_close_event_app; [done|]. by repeat constructor.
  - destruct Hinv as (Hc & Hx & Hn).
    destruct (Server.OnSessionCreate s); injection Hstep as <- <-; simpl.
    + split; [by apply created_session_app|]. split; [done|].
      apply no_close_event_app; [done|]. by repeat constructor.
    + done.
  - destruct Hinv as (Hc & Hx & Hn). injection Hstep as <- <-. simpl.
    split; [by apply created_session_app|]. split; [done|].
    apply no_close_event_app; [done|]. by repeat constructor.
  - destruct Hinv as (Hc & Hx & Hn). injection Hstep as <- <-. simpl.
    split; [by apply created_session_app|]. split; [done|].
    apply no_close_event_app; [done|]. by repeat constructor.
  - destruct Hinv as (Hc & [x Hx] & Hn). rewrite Hx in Hstep.
    destruct (sess_closed x) eqn:Hcl; [done|].
    injection Hstep as <- <-. simpl.
    split; [by apply created_session_app|]. by exists x.
  - destruct Hinv as (Hc & x & Hx & Hcl). simpl in Hx. rewrite Hx in Hstep.
    injection Hstep as <- <-. simpl.
    split; [by apply created_session_app|]. by exists x.
  - destruct Hinv as (Hc & Hcl).
    destruct (Server.OnSessionClose s); injection Hstep as <- <-; simpl.
    + split; [by apply created_session_app|]. done.
    + done.
  - destruct Hinv as (Hc & Hcl).
    destruct (conn_Close conn); injection Hstep as <- <-; simpl;
      exists sess; (split; [by repeat apply created_session_app|done]).
  - injection Hstep as <- <-. done.
Qed.

Lemma hc_inv_run c c' :
  rtc (hc_sched id conn) c c' → hc_inv c.1 c.2 → hc_inv c'.1 c'.2.
Proof.
  induction 1 as [|c1 c2 c3 Hstep _ IH]; [done|].
  intros Hinv. apply IH.
  destruct Hstep as [pc st pc' st' Hs|pc st st' Hi]; simpl in *.
  - by eapply hc_inv_statement.
  - by eapply hc_inv_interference.
Qed.

Lemma hc_inv_reachable st0 pc st :
  trace st0 = [] →
  rtc (hc_sched id conn) (hc_newSession, st0) (pc, st) →
  hc_inv pc st.
Proof.
  intros Hempty Hrun. by apply (hc_inv_run _ _ Hrun).
Qed.

Lemma pending_not_closed st sess :
  pending_in st sess → closed_in st sess → False.
Proof.
  intros (x & Hx & Ho) (x' & Hx' & Hc). congruence.
Qed.

(** C2: in every run of handleConn among the other goroutines, the
    session is taken out of the registry and the OnSessionClose hook is
    invoked only when the session's closed signal has fired: whenever
    one of the two has happened the signal has fired; while the signal
    is pending, the next statement of the goroutine leaves the session's
    registry entry in place and invokes no hook; and at the receive the
    goroutine stays blocked. *)
Theorem handleConn_close_signal_first (st0 st : State) (pc : hc_pc) :
  trace st0 = [] →
  rtc (hc_sched id conn) (hc_newSession, st0) (pc, st) →
  (∀ ev, ev ∈ trace st → is_close_event ev = true →
     ∃ sess, created_session (trace st) = Some sess ∧ closed_in st sess) ∧
  (∀ sess pc' st',
     hc_sess pc = Some sess →
     pending_in st sess →
     handleConn_step id conn pc st = (Returns pc', st') →
     no_close_event (trace st') ∧
     (∀ id', registry st !! id' = Some sess →
             registry st' !! id' = Some sess) ∧
     pending_in st' sess) ∧
  (∀ sess,
     pc = hc_recv_closed sess →
     pending_in st sess →
     handleConn_step id conn pc st = (Blocks, st)).
Proof.
  intros Hempty Hrun.
  pose proof (hc_inv_reachable _ _ _ Hempty Hrun) as Hinv.
  split; [|split].
  - intros ev Hin Hev.
    assert (Hno : no_close_event (trace st) → False).
    { intros Hn. unfold no_close_event in Hn. rewrite Forall_forall in Hn.
      specialize (Hn _ Hin). congruence. }
    destruct pc; simpl in Hinv.
    + rewrite Hinv in Hin. by apply elem_of_nil in Hin.
    + destruct Hinv as (_ & _ & Hn). by destruct Hno.
    + destruct Hinv as (_ & _ & Hn). by destruct Hno.
    + destruct Hinv as (_ & _ & Hn). by destruct Hno.
    + destruct Hinv as (_ & _ & Hn). by destruct Hno.
    + destruct Hinv as (_ & _ & Hn). by destruct Hno.
    + eauto.
    + eauto.
    + eauto.
    + done.
  - intros sess pc' st' Hsess Hpend Hstep.
    destruct st as [s h r tr].
    destruct pc; simpl in Hsess; try discriminate;
      injection Hsess as ->; simpl in Hinv;
      try (destruct Hinv as (_ & Hcl);
           by destruct (pending_not_closed _ _ Hpend Hcl));
      destruct Hinv as (Hc & _ & Hn);
      destruct Hpend as (x & Hx & Hopen); simpl in Hx;
      unfold handleConn_step, Sessions_Add, Session_ID, recv_closed in Hstep;
      unfold_M; simpl in Hstep; rewrite ?Hx, ?Hopen in Hstep;
      try discriminate.
    + injection Hstep as <- <-. simpl. split; [|split].
      * apply no_close_event_app; [done|]. by repeat constructor.
      * intros id' Hr. destruct (decide (sess_id x = id')) as [->|Hne].
        -- apply lookup_insert_eq.
        -- by rewrite lookup_insert_ne.
      * by exists x.
    + destruct (Server.OnSessionCreate s); injection Hstep as <- <-; simpl.
      * split; [|split; [done|by exists x]].
        apply no_close_event_app; [done|]. by repeat constructor.
      * split; [done|]. split; [done|by exists x].
    + injection Hstep as <- <-. simpl.
      split; [|split; [done|by exists x]].
      apply no_close_event_app; [done|]. by repeat constructor.
    + injection Hstep as <- <-. simpl.
      split; [|split; [done|by exists x]].
      apply no_close_event_app; [done|]. by repeat constructor.
  - intros sess -> (x & Hx & Hopen).
    unfold handleConn_step, recv_closed. unfold_M. simpl.
    by rewrite Hx, Hopen.
Qed.

End HandleConnRun.

(** Run on its own, [handleConn] stays blocked at the receive; with the
    session closed by then, it runs to its end. *)
Example handleConn_alone_blocks :
  (handleConn "s1" (demo_conn 1) hooked_entry).1 = Blocks ∧
  trace (handleConn "s1" (demo_conn 1) hooked_entry).2 = trace hc_demo_waiting.
Proof. by vm_compute. Qed.

Example handleConn_after_close_returns :
  handleConn_steps 4 "s1" (demo_conn 1) (hc_recv_closed 0)
    (closed_by_other 0 hc_demo_waiting) =
  (Returns hc_return, add_events [EvConnClose (demo_conn 1)] hc_demo_closed).
Proof. by vm_compute. Qed.

Lemma hc_demo_run :
  rtc (hc_sched "s1" (demo_conn 1))
    (hc_newSession, hooked_entry) (hc_conn_Close 0, hc_demo_closed).
Proof.
  eapply rtc_trans.
  { apply handleConn_steps_sched
      with (n := 5%nat) (pc' := hc_recv_closed 0) (st' := hc_demo_waiting).
    vm_compute. reflexivity. }
  eapply rtc_l.
  { apply sched_interference, (closed_by_other_interference 0). }
  apply handleConn_steps_sched with (n := 3%nat). vm_compute. reflexivity.
Defined.

Lemma handleConn_close_signal_first_witness :
  trace hc_demo_closed =
    [EvNewSession (demo_conn 1) 0; EvSessionsAdd "s1" 0;
     EvGo (Task_OnSessionCreate (UserHook 1) 0);
     EvGo (Task_readInbound 0 0); EvGo (Task_writeOutbound 0 0 3);
     EvRecvClosed 0; EvSessionsRemove "s1";
     EvGo (Task_OnSessionClose (UserHook 2) 0)] ∧
  (∃ sess, created_session (trace hc_demo_closed) = Some sess ∧
           closed_in hc_demo_closed sess) ∧
  handleConn_step "s1" (demo_conn 1) (hc_recv_closed 0) hc_demo_waiting =
    (Blocks, hc_demo_waiting).
Proof.
  split; [vm_compute; reflexivity|]. split.
  - destruct (handleConn_close_signal_first "s1" (demo_conn 1) hooked_entry
      hc_demo_closed (hc_conn_Close 0) eq_refl hc_demo_run) as (Hfired & _).
    apply (Hfired (EvSessionsRemove "s1")); [|reflexivity].
    vm_compute. do 6 constructor 2. constructor 1.
  - destruct (handleConn_close_signal_first "s1" (demo_conn 1) hooked_entry
      hc_demo_waiting (hc_recv_closed 0) eq_refl) as (_ & _ & Hblocks).
    + apply handleConn_steps_sched with (n := 5%nat).
      vm_compute. reflexivity.
    + apply (Hblocks 0%nat eq_refl).
      eexists. split; [vm_compute; reflexivity|reflexivity].
Defined.

(** * Further properties of the server *)

(** ** NewServer *)

(** The option after [NewServer], field by field. *)
Lemma NewServer_defaults_fields (opt : ServerOption.t) :
  NewServer_defaults opt =
  ServerOption.mk
    (ServerOption.SocketReadBufferSize opt)
    (ServerOption.SocketWriteBufferSize opt)
    (ServerOption.SocketSendDelay opt)
    (ServerOption.ReadTimeout opt) (ServerOption.WriteTimeout opt)
    (Some (default NewDefaultPacker (ServerOption.Packer opt)))
    (ServerOption.Codec opt)
    (if decide (ServerOption.ReqQueueSize opt < 0)
     then DefaultRespQueueSize else ServerOption.ReqQueueSize opt)
    (if decide (ServerOption.RespQueueSize opt < 0)
     then DefaultReqQueueSize else ServerOption.RespQueueSize opt)
    (ServerOption.DoNotPrintRoutes opt)
    (if decide (ServerOption.WriteAttemptTimes opt <= 0)
     then DefaultWriteAttemptTimes else ServerOption.WriteAttemptTimes opt).
Proof.
  destruct opt as [rb wb sd rt wt [pk|] cd rq rs np wa];
    unfold NewServer_defaults; simpl;
    repeat (case_decide; simpl in * ); try reflexivity; try lia; done.
Qed.

(** X1: NewServer gives the server the default packer when the option
    has none and the configured packer otherwise; the codec is passed
    on as it is, nil included. *)
Theorem NewServer_Packer (opt : ServerOption.t) :
  (ServerOption.Packer opt = None →
   Server.Packer (NewServer opt).2 = Some NewDefaultPacker) ∧
  (∀ p, ServerOption.Packer opt = Some p →
        Server.Packer (NewServer opt).2 = Some p) ∧
  Server.Codec (NewServer opt).2 = ServerOption.Codec opt.
Proof.
  unfold NewServer, NewServer_defaults.
  destruct opt as [rb wb sd rt wt pk cd rq rs np wa]; simpl.
  split; [|split].
  - intros ->. by repeat (case_decide; simpl in * ).
  - intros p ->. by repeat (case_decide; simpl in * ).
  - by repeat (case_decide; simpl in * ).
Qed.

Lemma NewServer_Packer_witness :
  Server.Packer (NewServer opt_zero).2 = Some DefaultPacker ∧
  Server.Packer (NewServer opt_positive).2 = Some (UserPacker 1).
Proof.
  destruct (NewServer_Packer opt_zero) as (Hnil & _ & _).
  destruct (NewServer_Packer opt_positive) as (_ & Hset & _).
  split; [apply Hnil; reflexivity | apply Hset; reflexivity].
Defined.

(** X2: whatever the option, the server NewServer builds has a packer,
    queue sizes that are not negative and a write-attempt count of at
    least 1, and so has the option the caller handed in, which
    NewServer updates in place. *)
Theorem NewServer_invariants (opt : ServerOption.t) :
  let opt' := (NewServer opt).1 in
  let s := (NewServer opt).2 in
  (Server.Packer s ≠ None ∧
   0 <= reqQueueSize (Server.router s) ∧
   0 <= Server.respQueueSize s ∧
   1 <= Server.writeAttemptTimes s) ∧
  (ServerOption.Packer opt' ≠ None ∧
   0 <= ServerOption.ReqQueueSize opt' ∧
   0 <= ServerOption.RespQueueSize opt' ∧
   1 <= ServerOption.WriteAttemptTimes opt').
Proof.
  unfold NewServer, NewServer_defaults.
  destruct opt as [rb wb sd rt wt pk cd rq rs np wa]; simpl.
  repeat (case_decide; simpl in * ); subst;
    unfold DefaultReqQueueSize, DefaultRespQueueSize,
      DefaultWriteAttemptTimes;
    repeat split; try done; lia.
Qed.

Lemma NewServer_defaults_idemp (opt : ServerOption.t) :
  NewServer_defaults (NewServer_defaults opt) = NewServer_defaults opt.
Proof.
  rewrite (NewServer_defaults_fields (NewServer_defaults opt)).
  rewrite (NewServer_defaults_fields opt). simpl.
  unfold DefaultReqQueueSize, DefaultRespQueueSize, DefaultWriteAttemptTimes.
  f_equal; repeat case_decide; try reflexivity; lia.
Qed.

(** X3: the defaults are filled in once and for all: building a server
    again from the option a first NewServer has updated changes the
    option no more and gives the same server. *)
Theorem NewServer_again (opt : ServerOption.t) :
  NewServer (NewServer opt).1 = NewServer opt.
Proof.
  unfold NewServer. cbn [fst].
  by rewrite NewServer_defaults_idemp.
Qed.

(** ** isStopped *)

(** X4: isStopped only looks: it never blocks, changes nothing and
    leaves no trace; it answers false on a server fresh from NewServer
    and true after any call of Stop. *)
Theorem isStopped_reports :
  (∀ st, ∃ b, isStopped st = (Returns b, st) ∧
              (b = true ↔ Server.stopped (srv st) = ChanClosed)) ∧
  (∀ opt, isStopped (initial (NewServer opt).2) =
          (Returns false, initial (NewServer opt).2)) ∧
  (∀ st, isStopped (Stop st).2 = (Returns true, (Stop st).2)).
Proof.
  assert (Hany : ∀ st, ∃ b, isStopped st = (Returns b, st) ∧
              (b = true ↔ Server.stopped (srv st) = ChanClosed)).
  { intros st. unfold isStopped. unfold_M.
    destruct (Server.stopped (srv st)) eqn:Hs.
    - exists false. by split.
    - exists true. by split. }
  split; [exact Hany|]. split.
  - done.
  - intros st. destruct (Hany (Stop st).2) as (b & Hb & Hiff).
    rewrite Hb. f_equal. f_equal.
    apply Hiff, Stop_leaves_stopped_closed.
Qed.

(** ** Serve and the accept loop *)

Lemma add_events_add_events evs1 evs2 st :
  add_events evs2 (add_events evs1 st) = add_events (evs1 ++ evs2) st.
Proof. unfold add_events. simpl. by rewrite app_assoc. Qed.

Lemma add_events_nil st : add_events [] st = st.
Proof. destruct st. unfold add_events. simpl. by rewrite app_nil_r. Qed.

Lemma after_Accept_not_stopped t st :
  stopped_meanwhile t = false → after_Accept t st = add_events [EvAccept] st.
Proof. intros Hm. unfold after_Accept, add_events. by rewrite Hm. Qed.

(** The loop body only adds to the trace, and only its own actions; it
    leaves the sessions and the registry alone. *)
Lemma body_frame t st :
  ∃ evs, trace (acceptLoop_body t st).2 = trace st ++ evs ∧
         Forall (λ ev, is_loop_event ev = true) evs ∧
         heap (acceptLoop_body t st).2 = heap st ∧
         registry (acceptLoop_body t st).2 = registry st.
Proof.
  unfold_body. destruct st as [s h r tr]. simpl.
  destruct (Server.stopped s) eqn:Hs; simpl;
    [|by exists [EvTracef LogAcceptLoopStopped]; repeat constructor].
  destruct (Server.Listener s); simpl;
    [|by exists []; rewrite app_nil_r; repeat constructor].
  destruct t as [[conn|err] [|]]; simpl; rewrite ?Hs; simpl.
  - repeat (case_decide; simpl); destruct (conn_is_tcp conn); simpl;
      try (by eexists; split; [norm_trace; reflexivity|repeat constructor]);
      destruct (conn_SetReadBuffer conn); simpl;
      try (by eexists; split; [norm_trace; reflexivity|repeat constructor]);
      destruct (conn_SetWriteBuffer conn); simpl;
      try (by eexists; split; [norm_trace; reflexivity|repeat constructor]);
      destruct (Server.socketSendDelay s); simpl;
      try (by eexists; split; [norm_trace; reflexivity|repeat constructor]);
      destruct (conn_SetNoDelay conn); simpl;
      by eexists; split; [norm_trace; reflexivity|repeat constructor].
  - repeat (case_decide; simpl); destruct (conn_is_tcp conn); simpl;
      try (by eexists; split; [norm_trace; reflexivity|repeat constructor]);
      destruct (conn_SetReadBuffer conn); simpl;
      try (by eexists; split; [norm_trace; reflexivity|repeat constructor]);
      destruct (conn_SetWriteBuffer conn); simpl;
      try (by eexists; split; [norm_trace; reflexivity|repeat constructor]);
      destruct (Server.socketSendDelay s); simpl;
      try (by eexists; split; [norm_trace; reflexivity|repeat constructor]);
      destruct (conn_SetNoDelay conn); simpl;
      by eexists; split; [norm_trace; reflexivity|repeat constructor].
  - by eexists; split; [norm_trace; reflexivity|repeat constructor].
  - destruct (isTemporary err); simpl;
      by eexists; split; [norm_trace; reflexivity|repeat constructor].
Qed.

Lemma acceptLoop_for_frame turns st :
  ∃ evs, trace (acceptLoop_for turns st).2 = trace st ++ evs ∧
         Forall (λ ev, is_loop_event ev = true) evs ∧
         heap (acceptLoop_for turns st).2 = heap st ∧
         registry (acceptLoop_for turns st).2 = registry st ∧
         Server.Listener (srv (acceptLoop_for turns st).2) =
           Server.Listener (srv st) ∧
         Server.accepting (srv (acceptLoop_for turns st).2) =
           Server.accepting (srv st).
Proof.
  revert st. induction turns as [|t turns IH]; intros st.
  - simpl. unfold isStopped. unfold_M. destruct st as [s h r tr]. simpl.
    destruct (Server.stopped s); simpl.
    + destruct (Server.Listener s) eqn:Hl; simpl.
      * exists [EvAccept]. by repeat constructor.
      * exists []. rewrite app_nil_r. by repeat constructor.
    + exists [EvTracef LogAcceptLoopStopped]. by repeat constructor.
  - rewrite acceptLoop_for_cons.
    destruct (body_frame t st) as (evs & Htr & Hev & Hh & Hr).
    pose proof (body_srv t st) as Hsrv.
    destruct (acceptLoop_body t st) as [[[|err]|p|] st1]; simpl in *.
    + destruct (IH st1) as (evs' & Htr' & Hev' & Hh' & Hr' & Hl' & Ha').
      exists (evs ++ evs'). rewrite Htr', Htr, Hh', Hr', Hl', Ha', Hh, Hr.
      rewrite app_assoc. split; [done|]. split; [by apply Forall_app_2|].
      by destruct Hsrv as [-> | ->].
    + exists evs. by destruct Hsrv as [-> | ->].
    + exists evs. by destruct Hsrv as [-> | ->].
    + exists evs. by destruct Hsrv as [-> | ->].
Qed.

Lemma acceptLoop_for_stopped turns st :
  Server.stopped (srv st) = ChanClosed →
  acceptLoop_for turns st =
  (Returns (Some ErrServerStopped),
   add_events [EvTracef LogAcceptLoopStopped] st).
Proof.
  intros Hs. destruct turns as [|t rest].
  - simpl. unfold isStopped, add_events. unfold_M. simpl. by rewrite Hs.
  - rewrite acceptLoop_for_cons. by rewrite body_stopped_at_top.
Qed.

(** X5: on a server that is neither serving nor stopped, with an address
    that resolves and a listener that opens, Serve stores the listener,
    prints the routes under "tcp://" and the listener's address exactly
    when printRoutes is set (NewServer sets it to the negation of
    DoNotPrintRoutes), starts the router's dispatch stage once, closes
    the accepting channel and only then calls Accept, in which it stays
    blocked as long as nothing arrives. *)
Theorem Serve_startup_sequence (addr address : string) (env : ServeEnv)
    (lis : Listener) (st : State) :
  env_ResolveTCPAddr env = inl address →
  env_ListenTCP env = inl lis →
  env_turns env = [] →
  Server.accepting (srv st) = ChanOpen →
  Server.stopped (srv st) = ChanOpen →
  ∃ st',
    Serve addr env st = (Blocks, st') ∧
    trace st' =
      trace st ++
      [EvResolveTCPAddr addr; EvListenTCP address] ++
      (if Server.printRoutes (srv st)
       then [EvPrintHandlers ("tcp://" +:+ lis_Addr lis)] else []) ++
      [EvGo Task_consumeRequest; EvCloseChan ch_accepting; EvAccept] ∧
    Server.Listener (srv st') = Some lis ∧
    Server.accepting (srv st') = ChanClosed ∧
    ∀ opt, Server.printRoutes (NewServer opt).2 =
           negb (ServerOption.DoNotPrintRoutes opt).
Proof.
  intros Hr Hl Hturns Ha Hs.
  rewrite (Serve_listening _ _ _ _ _ Hr Hl Ha), Hturns.
  simpl. unfold isStopped. unfold_M. simpl. rewrite Hs. simpl.
  eexists. split; [reflexivity|]. simpl.
  split; [by norm_trace; destruct (Server.printRoutes (srv st))|].
  split; [done|]. split; [done|].
  intros opt. unfold NewServer. cbn [snd Server.printRoutes].
  by rewrite NewServer_defaults_fields.
Qed.

Lemma Serve_startup_sequence_witness :
  ∃ st',
    Serve "127.0.0.1:8888" (env_listening []) fresh_server = (Blocks, st') ∧
    trace st' =
      [EvResolveTCPAddr "127.0.0.1:8888"; EvListenTCP "127.0.0.1:8888";
       EvGo Task_consumeRequest; EvCloseChan ch_accepting; EvAccept].
Proof.
  destruct (Serve_startup_sequence "127.0.0.1:8888" "127.0.0.1:8888"
    (env_listening []) demo_listener fresh_server
    eq_refl eq_refl eq_refl eq_refl eq_refl) as (st' & Hrun & Htrace & _).
  exists st'. split; [exact Hrun | exact Htrace].
Defined.

(** X6: Serve can be entered once per server.  After a first Serve that
    got as far as its loop, a second Serve on the same server still
    resolves and listens, replaces the stored listener, starts the
    dispatch stage once more, and then panics on closing the accepting
    channel, which is closed already. *)
Theorem Serve_again_panics (addr1 addr2 address1 address2 : string)
    (env1 env2 : ServeEnv) (lis1 lis2 : Listener) (st : State) :
  env_ResolveTCPAddr env1 = inl address1 →
  env_ListenTCP env1 = inl lis1 →
  env_ResolveTCPAddr env2 = inl address2 →
  env_ListenTCP env2 = inl lis2 →
  let st1 := (Serve addr1 env1 st).2 in
  Server.accepting (srv st1) = ChanClosed ∧
  Serve addr2 env2 st1 =
    (Panics CloseOfClosedChannel,
     {| srv := with_Listener (Some lis2) (srv st1);
        heap := heap st1; registry := registry st1;
        trace := trace st1 ++
          [EvResolveTCPAddr addr2; EvListenTCP address2] ++
          (if Server.printRoutes (srv st1)
           then [EvPrintHandlers ("tcp://" +:+ lis_Addr lis2)] else []) ++
          [EvGo Task_consumeRequest] |}).
Proof.
  intros Hr1 Hl1 Hr2 Hl2 st1.
  assert (Hclosed : Server.accepting (srv st1) = ChanClosed).
  { unfold st1. destruct (Server.accepting (srv st)) eqn:Ha.
    - rewrite (Serve_listening _ _ _ _ _ Hr1 Hl1 Ha).
      destruct (acceptLoop_for_frame (env_turns env1)
                  (Serve_loop_entry addr1 address1 lis1 st))
        as (_ & _ & _ & _ & _ & _ & ->). done.
    - unfold Serve, acceptLoop, close_chan. unfold_M. simpl.
      rewrite Hr1. simpl. rewrite Hl1. simpl.
      destruct (Server.printRoutes (srv st)); simpl; by rewrite Ha. }
  split; [done|].
  unfold Serve, acceptLoop, close_chan. unfold_M. simpl.
  rewrite Hr2. simpl. rewrite Hl2. simpl.
  destruct (Server.printRoutes (srv st1)); simpl; rewrite Hclosed; simpl;
    by norm_trace.
Qed.

Lemma Serve_again_panics_witness :
  (Serve "127.0.0.1:9999" (env_listening [])
     (Serve "127.0.0.1:8888" (env_listening demo_turns) fresh_server).2).1 =
  Panics CloseOfClosedChannel.
Proof.
  destruct (Serve_again_panics "127.0.0.1:8888" "127.0.0.1:9999"
    "127.0.0.1:8888" "127.0.0.1:8888" (env_listening demo_turns)
    (env_listening []) demo_listener demo_listener fresh_server
    eq_refl eq_refl eq_refl eq_refl) as [_ Hpanic].
  by rewrite Hpanic.
Defined.

(** X7: Serve on a server that has been stopped already (and has not
    served yet) still resolves, opens the listener, stores it and starts
    the dispatch stage; it then returns ErrServerStopped at the first
    check of the loop, without calling Accept and without closing the
    listener it has opened. *)
Theorem Serve_on_stopped_server (addr address : string) (env : ServeEnv)
    (lis : Listener) (st : State) :
  env_ResolveTCPAddr env = inl address →
  env_ListenTCP env = inl lis →
  Server.accepting (srv st) = ChanOpen →
  Server.stopped (srv st) = ChanClosed →
  Serve addr env st =
    (Returns (Some ErrServerStopped),
     add_events [EvTracef LogAcceptLoopStopped]
       (Serve_loop_entry addr address lis st)) ∧
  Server.Listener (srv (Serve addr env st).2) = Some lis ∧
  trace (Serve addr env st).2 =
    trace st ++
    [EvResolveTCPAddr addr; EvListenTCP address] ++
    (if Server.printRoutes (srv st)
     then [EvPrintHandlers ("tcp://" +:+ lis_Addr lis)] else []) ++
    [EvGo Task_consumeRequest; EvCloseChan ch_accepting;
     EvTracef LogAcceptLoopStopped].
Proof.
  intros Hr Hl Ha Hs.
  assert (Hrun : Serve addr env st =
    (Returns (Some ErrServerStopped),
     add_events [EvTracef LogAcceptLoopStopped]
       (Serve_loop_entry addr address lis st))).
  { rewrite (Serve_listening _ _ _ _ _ Hr Hl Ha).
    by apply acceptLoop_for_stopped. }
  rewrite Hrun. simpl. split; [done|]. split; [done|].
  destruct (Server.printRoutes (srv st)); simpl; by norm_trace.
Qed.

Lemma Serve_on_stopped_server_witness :
  (Serve "127.0.0.1:8888" (env_listening demo_turns)
     (initial (with_stopped ChanClosed (NewServer opt_positive).2))).1 =
  Returns (Some ErrServerStopped).
Proof.
  destruct (Serve_on_stopped_server "127.0.0.1:8888" "127.0.0.1:8888"
    (env_listening demo_turns) demo_listener
    (initial (with_stopped ChanClosed (NewServer opt_positive).2))
    eq_refl eq_refl eq_refl eq_refl) as [Hrun _].
  by rewrite Hrun.
Defined.

(** X8: whatever the network answers and however the loop ends, Serve
    only adds to the trace, and only its start-up actions and those of
    the loop: it never closes the listener it opened, never closes an
    accepted connection (not even one it rejects for a failed socket
    option), never calls Close on a session or stops the router, and it
    leaves the sessions and the registry as they are. *)
Theorem Serve_never_closes (addr : string) (env : ServeEnv) (st : State) :
  ∃ evs,
    trace (Serve addr env st).2 = trace st ++ evs ∧
    Forall (λ ev, is_startup_event ev || is_loop_event ev = true) evs ∧
    (EvListenerClose ∉ evs) ∧
    (EvRouterStop ∉ evs) ∧
    (∀ conn, EvConnClose conn ∉ evs) ∧
    (∀ sess, EvSessionClose sess ∉ evs) ∧
    heap (Serve addr env st).2 = heap st ∧
    registry (Serve addr env st).2 = registry st.
Proof.
  assert (Hex : ∃ evs,
    trace (Serve addr env st).2 = trace st ++ evs ∧
    Forall (λ ev, is_startup_event ev || is_loop_event ev = true) evs ∧
    heap (Serve addr env st).2 = heap st ∧
    registry (Serve addr env st).2 = registry st).
  { unfold Serve, acceptLoop, close_chan. unfold_M. simpl.
    destruct (env_ResolveTCPAddr env) as [address|err]; simpl;
      [|exists [EvResolveTCPAddr addr]; by repeat constructor].
    destruct (env_ListenTCP env) as [lis|err]; simpl;
      [|exists [EvResolveTCPAddr addr; EvListenTCP address];
        split; [by norm_trace|by repeat constructor]].
    destruct (Server.printRoutes (srv st)); simpl;
      destruct (Server.accepting (srv st)); simpl;
      try (eexists; split; [norm_trace; reflexivity|by repeat constructor]).
    - match goal with |- context [acceptLoop_for ?ts ?s0] =>
        destruct (acceptLoop_for_frame ts s0)
          as (evs & Htr & Hev & Hh & Hr & _) end.
      eexists. rewrite Htr, Hh, Hr. simpl. norm_trace.
      split; [reflexivity|]. split; [|done].
      repeat (constructor; [done|]).
      eapply Forall_impl; [exact Hev|]. intros ev ->. apply orb_true_r.
    - match goal with |- context [acceptLoop_for ?ts ?s0] =>
        destruct (acceptLoop_for_frame ts s0)
          as (evs & Htr & Hev & Hh & Hr & _) end.
      eexists. rewrite Htr, Hh, Hr. simpl. norm_trace.
      split; [reflexivity|]. split; [|done].
      repeat (constructor; [done|]).
      eapply Forall_impl; [exact Hev|]. intros ev ->. apply orb_true_r. }
  destruct Hex as (evs & Htr & Hev & Hh & Hr).
  exists evs. rewrite Forall_forall in Hev.
  split; [done|]. split; [by apply Forall_forall|].
  split; [intros Hin; by specialize (Hev _ Hin)|].
  split; [intros Hin; by specialize (Hev _ Hin)|].
  split; [intros conn Hin; by specialize (Hev _ Hin)|].
  split; [intros sess Hin; by specialize (Hev _ Hin)|].
  done.
Qed.

(** X9: the retries after temporary errors of Accept have no bound: the
    loop goes through any number of them in a row, with one sleep of the
    fixed delay after each, and is then where it was, ready for the next
    call of Accept. *)
Theorem acceptLoop_retries_without_bound (errs : list error_value)
    (rest : list AcceptTurn) (st : State) (lis : Listener) :
  Server.stopped (srv st) = ChanOpen →
  Server.Listener (srv st) = Some lis →
  Forall (λ err, isTemporary err = true) errs →
  acceptLoop_for (((λ err, turn_error err false) <$> errs) ++ rest) st =
  acceptLoop_for rest (add_events (errs ≫= retry_events) st).
Proof.
  intros Hs Hl Htmp. revert st Hs Hl.
  induction Htmp as [|err errs Herr _ IH]; intros st Hs Hl.
  - simpl. by rewrite add_events_nil.
  - cbn [fmap list_fmap app]. rewrite acceptLoop_for_cons.
    rewrite (body_error_not_stopped (turn_error err false) _ lis err
               Hs Hl eq_refl eq_refl).
    rewrite Herr. rewrite after_Accept_not_stopped by done.
    rewrite add_events_add_events. rewrite IH by done.
    rewrite add_events_add_events. reflexivity.
Qed.

Lemma acceptLoop_retries_without_bound_witness :
  acceptLoop_for
    (replicate 3 (turn_error too_many_files_error false) ++
     [turn_error refused_error false]) demo_entry =
  (Returns (Some (Errorf
     "accept err: accept tcp 127.0.0.1:8888: accept4: invalid argument")),
   add_events
     (retry_events too_many_files_error ++ retry_events too_many_files_error
      ++ retry_events too_many_files_error ++ [EvAccept]) demo_entry).
Proof.
  etrans.
  { exact (acceptLoop_retries_without_bound
      (replicate 3 too_many_files_error) [turn_error refused_error false]
      demo_entry demo_listener eq_refl eq_refl
      ltac:(repeat constructor)). }
  vm_compute. reflexivity.
Defined.

Lemma body_returns t st e st' :
  acceptLoop_body t st = (Returns (Return e), st') →
  e = Some ErrServerStopped ∨ ∃ msg, e = Some (Errorf msg).
Proof.
  unfold_body. destruct st as [s h r tr]. simpl.
  destruct (Server.stopped s) eqn:Hs; simpl;
    [|intros [= <- <-]; by left].
  destruct (Server.Listener s); simpl; [|done].
  destruct t as [[conn|err] [|]]; simpl; rewrite ?Hs; simpl.
  - repeat (case_decide; simpl); destruct (conn_is_tcp conn); simpl;
      try done;
      destruct (conn_SetReadBuffer conn); simpl;
      try (intros [= <- <-]; by eauto);
      destruct (conn_SetWriteBuffer conn); simpl;
      try (intros [= <- <-]; by eauto);
      destruct (Server.socketSendDelay s); simpl; try done;
      destruct (conn_SetNoDelay conn); simpl; try done;
      intros [= <- <-]; by eauto.
  - repeat (case_decide; simpl); destruct (conn_is_tcp conn); simpl;
      try done;
      destruct (conn_SetReadBuffer conn); simpl;
      try (intros [= <- <-]; by eauto);
      destruct (conn_SetWriteBuffer conn); simpl;
      try (intros [= <- <-]; by eauto);
      destruct (Server.socketSendDelay s); simpl; try done;
      destruct (conn_SetNoDelay conn); simpl; try done;
      intros [= <- <-]; by eauto.
  - intros [= <- <-]. by left.
  - destruct (isTemporary err); simpl; [done|].
    intros [= <- <-]. eauto.
Qed.

Lemma acceptLoop_for_returns turns st e st' :
  acceptLoop_for turns st = (Returns e, st') →
  e = Some ErrServerStopped ∨ ∃ msg, e = Some (Errorf msg).
Proof.
  revert st. induction turns as [|t turns IH]; intros st.
  - simpl. unfold isStopped. unfold_M. destruct st as [s h r tr]. simpl.
    destruct (Server.stopped s); simpl.
    + by destruct (Server.Listener s).
    + intros [= <- <-]. by left.
  - rewrite acceptLoop_for_cons.
    destruct (acceptLoop_body t st) as [[[|err]|p|] st1] eqn:Hb; try done.
    + apply IH.
    + intros [= <- <-]. by eapply body_returns.
Qed.

(** X10: Serve never returns nil.  When it returns, its error is the one
    of ResolveTCPAddr, the one of ListenTCP, the sentinel
    ErrServerStopped, or a fresh error made by the loop from an error of
    Accept or of a socket option. *)
Theorem Serve_returns_an_error (addr : string) (env : ServeEnv)
    (st st' : State) (e : error) :
  Serve addr env st = (Returns e, st') →
  ∃ err, e = Some err ∧
    (env_ResolveTCPAddr env = inr err ∨
     env_ListenTCP env = inr err ∨
     err = ErrServerStopped ∨
     ∃ msg, err = Errorf msg).
Proof.
  unfold Serve, acceptLoop, close_chan. unfold_M. simpl.
  destruct (env_ResolveTCPAddr env) as [address|err]; simpl;
    [|intros [= <- <-]; by eauto].
  destruct (env_ListenTCP env) as [lis|err]; simpl;
    [|intros [= <- <-]; by eauto 6].
  destruct (Server.printRoutes (srv st)); simpl;
    destruct (Server.accepting (srv st)); simpl; try done;
    intros Hloop; apply acceptLoop_for_returns in Hloop
      as [-> | [msg ->]]; eauto 8.
Qed.

Lemma Serve_returns_an_error_witness :
  ∃ err,
    Some (Errorf
      "accept err: accept tcp 127.0.0.1:8888: accept4: invalid argument") =
    Some err ∧
    (env_ResolveTCPAddr (env_listening demo_turns) = inr err ∨
     env_ListenTCP (env_listening demo_turns) = inr err ∨
     err = ErrServerStopped ∨
     ∃ msg, err = Errorf msg).
Proof.
  apply (Serve_returns_an_error "127.0.0.1:8888" (env_listening demo_turns)
           fresh_server
           (Serve "127.0.0.1:8888" (env_listening demo_turns) fresh_server).2).
  vm_compute. reflexivity.
Defined.

Lemma handled_app tr1 tr2 : handled (tr1 ++ tr2) = handled tr1 ++ handled tr2.
Proof. apply omap_app. Qed.

Lemma handled_socket_options s conn :
  handled (socket_options s conn).1 = [].
Proof.
  unfold socket_options.
  repeat case_decide; destruct (conn_SetReadBuffer conn),
    (conn_SetWriteBuffer conn), (Server.socketSendDelay s),
    (conn_SetNoDelay conn); reflexivity.
Qed.

(** X11: connections are handed over in the order they are accepted.
    On a listening server that is not stopped, after the loop has
    accepted the TCP connections [conns], all setters succeeding, it is
    blocked in the next Accept and has started one handleConn per
    connection, in that order. *)
Theorem acceptLoop_handles_in_order (conns : list Conn) (st : State)
    (lis : Listener) :
  Server.stopped (srv st) = ChanOpen →
  Server.Listener (srv st) = Some lis →
  Forall (λ conn, conn_is_tcp conn = true ∧
                  conn_SetReadBuffer conn = None ∧
                  conn_SetWriteBuffer conn = None ∧
                  conn_SetNoDelay conn = None) conns →
  ∃ st',
    acceptLoop_for (turn_conn <$> conns) st = (Blocks, st') ∧
    handled (trace st') = handled (trace st) ++ conns.
Proof.
  intros Hs Hl Hok. revert st Hs Hl.
  induction Hok as [|conn conns (Htcp & Hrb & Hwb & Hnd) _ IH];
    intros st Hs Hl.
  - simpl. unfold isStopped. unfold_M. simpl. rewrite Hs. simpl.
    rewrite Hl. simpl. eexists. split; [reflexivity|]. simpl.
    rewrite handled_app. simpl. by rewrite app_nil_r.
  - cbn [fmap list_fmap]. rewrite acceptLoop_for_cons.
    rewrite (body_accepted (turn_conn conn) _ lis conn Hs Hl eq_refl Htcp).
    pose proof (handled_socket_options (srv st) conn) as Hh.
    assert (Hnone : (socket_options (srv st) conn).2 = None).
    { unfold socket_options. rewrite Hrb, Hwb, Hnd.
      by repeat case_decide; destruct (Server.socketSendDelay (srv st)). }
    destruct (socket_options (srv st) conn) as [evs [err|]]; [done|].
    simpl in Hh.
    rewrite after_Accept_not_stopped by done.
    rewrite add_events_add_events.
    destruct (IH (add_events ([EvAccept] ++ evs ++
                              [EvGo (Task_handleConn conn)]) st))
      as (st' & Hrun & Hhandled); [done|done|].
    exists st'. split; [exact Hrun|]. rewrite Hhandled. simpl.
    rewrite !handled_app. simpl. rewrite handled_app, Hh. simpl.
    by rewrite <- app_assoc.
Qed.

Lemma acceptLoop_handles_in_order_witness :
  ∃ st',
    acceptLoop_for [turn_conn (demo_conn 3); turn_conn (demo_conn 1);
                    turn_conn (demo_conn 2)] demo_entry = (Blocks, st') ∧
    handled (trace st') = [demo_conn 3; demo_conn 1; demo_conn 2].
Proof.
  destruct (acceptLoop_handles_in_order
    [demo_conn 3; demo_conn 1; demo_conn 2] demo_entry demo_listener
    eq_refl eq_refl ltac:(by repeat constructor))
    as (st' & Hrun & Hhandled).
  exists st'. split; [exact Hrun | exact Hhandled].
Defined.

(** ** Stop *)

(** X12: Stop on a server that has no listener yet (Serve has not
    stored one) panics on the nil listener, but only at its last step:
    by then the stopped channel is closed, every registered session has
    been closed and the router is stopped.  This is what Stop does on a
    server fresh from NewServer. *)
Theorem Stop_before_Serve (st : State) :
  Server.stopped (srv st) = ChanOpen →
  Server.Listener (srv st) = None →
  ∃ st',
    Stop st = (Panics NilPointerDereference, st') ∧
    trace st' =
      trace st ++ [EvCloseChan ch_stopped] ++
      (EvSessionClose <$> Stop_sessions st) ++
      [EvTracef (LogSessionsClosed (Stop_closedNum st)); EvRouterStop] ∧
    Server.stopped (srv st') = ChanClosed ∧
    routerStopped (Server.router (srv st')) = true ∧
    (∀ id sess, registry st !! id = Some sess →
       heap st' !! sess = Session_closed_fired <$> heap st !! sess) ∧
    ∀ opt,
      (Stop (initial (NewServer opt).2)).1 = Panics NilPointerDereference.
Proof.
  intros Hs Hl. exists (Stop_state st). rewrite (Stop_open _ Hs), Hl.
  split; [done|]. split.
  { simpl. unfold Stop_events. rewrite Hl. by rewrite app_nil_r. }
  split; [done|]. split; [done|]. split.
  - intros id sess Hreg. simpl. apply closed_through_lookup_in.
    by eapply registry_in_Stop_sessions.
  - intros opt. by rewrite Stop_open.
Qed.

Lemma Stop_before_Serve_witness :
  ∃ st',
    Stop (initial (NewServer opt_zero).2) =
      (Panics NilPointerDereference, st') ∧
    trace st' =
      [EvCloseChan ch_stopped; EvTracef (LogSessionsClosed 0); EvRouterStop].
Proof.
  destruct (Stop_before_Serve (initial (NewServer opt_zero).2)
              eq_refl eq_refl) as (st' & Hrun & Htrace & _).
  exists st'. split; [exact Hrun | exact Htrace].
Defined.




(** ** handleConn *)

Lemma hc_order_extend tr evs lo hi :
  Forall (λ ev, (0 < ev_rank ev < lo)%nat) tr →
  StronglySorted program_order tr →
  Forall (λ ev, (lo <= ev_rank ev < hi)%nat) evs →
  StronglySorted program_order evs →
  (0 < lo <= hi)%nat →
  Forall (λ ev, (0 < ev_rank ev < hi)%nat) (tr ++ evs) ∧
  StronglySorted program_order (tr ++ evs).
Proof.
  intros Htr Hs Hevs Hs' Hlo. rewrite Forall_forall in Htr, Hevs. split.
  - apply Forall_app_2; apply Forall_forall; intros ev Hin.
    + specialize (Htr _ Hin). lia.
    + specialize (Hevs _ Hin). lia.
  - apply StronglySorted_app_2; [|done|done].
    intros a b Ha Hb. specialize (Htr _ Ha). specialize (Hevs _ Hb).
    unfold program_order. lia.
Qed.

Ltac hc_order_step Hall Hsorted :=
  simpl; rewrite ?app_nil_r;
  first
    [ eapply hc_order_extend;
      [exact Hall | exact Hsorted
      | repeat constructor; simpl; lia
      | repeat constructor; unfold program_order; simpl; lia
      | simpl; lia]
    | (split; [|exact Hsorted]);
      eapply Forall_impl; [exact Hall|]; simpl; intros; lia ].

Lemma hc_order_statement id conn pc st pc' st' :
  hc_order pc st →
  handleConn_step id conn pc st = (Returns pc', st') →
  hc_order pc' st'.
Proof.
  intros [Hall Hsorted] Hstep. destruct st as [s h r tr].
  unfold hc_order in *. simpl in Hall, Hsorted.
  destruct pc; simpl in Hall;
    unfold handleConn_step, newSession, Sessions_Add, Sessions_Remove,
      Session_ID, recv_closed in Hstep;
    unfold_M; simpl in Hstep.
  - injection Hstep as <- <-. hc_order_step Hall Hsorted.
  - destruct (h !! sess) as [x|]; [|done].
    injection Hstep as <- <-. hc_order_step Hall Hsorted.
  - destruct (Server.OnSessionCreate s); injection Hstep as <- <-;
      hc_order_step Hall Hsorted.
  - injection Hstep as <- <-. hc_order_step Hall Hsorted.
  - injection Hstep as <- <-. hc_order_step Hall Hsorted.
  - destruct (h !! sess) as [x|]; [|done].
    destruct (sess_closed x); [done|].
    injection Hstep as <- <-. hc_order_step Hall Hsorted.
  - destruct (h !! sess) as [x|]; [|done].
    injection Hstep as <- <-. hc_order_step Hall Hsorted.
  - destruct (Server.OnSessionClose s); injection Hstep as <- <-;
      hc_order_step Hall Hsorted.
  - destruct (conn_Close conn); injection Hstep as <- <-;
      rewrite <- ?app_assoc; hc_order_step Hall Hsorted.
  - injection Hstep as <- <-. by split.
Qed.

Lemma hc_order_run id conn c c' :
  rtc (hc_sched id conn) c c' → hc_order c.1 c.2 → hc_order c'.1 c'.2.
Proof.
  induction 1 as [|c1 c2 c3 Hstep _ IH]; [done|].
  intros Hinv. apply IH.
  destruct Hstep as [pc st pc' st' Hs|pc st st' [Htr _]]; simpl in *.
  - by eapply hc_order_statement.
  - unfold hc_order. by rewrite Htr.
Qed.

(** X14: in every run of handleConn among the other goroutines, its
    actions are taken in the order of its text and none is taken twice:
    of any two actions in its trace the earlier one stands earlier in
    the text.  So the session is created before it is registered,
    registered before its two tasks are started, the registry entry is
    removed only after the receive on the closed channel, the
    session-closed hook comes after the removal, and the connection is
    closed last, once. *)
Theorem handleConn_program_order (id : string) (conn : Conn)
    (st0 st : State) (pc : hc_pc) :
  trace st0 = [] →
  rtc (hc_sched id conn) (hc_newSession, st0) (pc, st) →
  StronglySorted program_order (trace st) ∧
  (∀ l1 a l2 b l3, trace st = l1 ++ a :: l2 ++ b :: l3 →
                   (0 < ev_rank a < ev_rank b)%nat) ∧
  NoDup (trace st).
Proof.
  intros Hempty Hrun.
  pose proof (hc_order_run _ _ _ _ Hrun) as Hinv. simpl in Hinv.
  destruct Hinv as [Hall Hsorted].
  { unfold hc_order. rewrite Hempty. split; constructor. }
  split; [done|]. split.
  - intros l1 a l2 b l3 Heq. rewrite Heq in Hall, Hsorted.
    rewrite Forall_forall in Hall.
    assert (Ha : (0 < ev_rank a)%nat).
    { assert (Hin : a ∈ l1 ++ a :: l2 ++ b :: l3).
      { apply elem_of_app. right. by constructor. }
      specialize (Hall _ Hin). lia. }
    split; [done|].
    apply StronglySorted_app_1_r in Hsorted.
    change (a :: l2 ++ b :: l3) with ([a] ++ (l2 ++ b :: l3)) in Hsorted.
    eapply (StronglySorted_app_1_elem_of _ _ _ a b) in Hsorted;
      [done|by constructor|].
    apply elem_of_app. right. by constructor.
  - clear Hall. induction Hsorted as [|a tr Hs IH Hlt]; constructor.
    + intros Hin. rewrite Forall_forall in Hlt. specialize (Hlt _ Hin).
      unfold program_order in Hlt. lia.
    + done.
Qed.

Lemma handleConn_program_order_witness :
  StronglySorted program_order (trace hc_demo_closed) ∧
  (0 < ev_rank (EvSessionsAdd "s1" 0) < ev_rank (EvSessionsRemove "s1"))%nat.
Proof.
  destruct (handleConn_program_order "s1" (demo_conn 1) hooked_entry
    hc_demo_closed (hc_conn_Close 0) eq_refl hc_demo_run)
    as (Hsorted & Hpairs & _).
  split; [exact Hsorted|].
  apply (Hpairs [EvNewSession (demo_conn 1) 0]
           (EvSessionsAdd "s1" 0)
           [EvGo (Task_OnSessionCreate (UserHook 1) 0);
            EvGo (Task_readInbound 0 0); EvGo (Task_writeOutbound 0 0 3);
            EvRecvClosed 0]
           (EvSessionsRemove "s1")
           [EvGo (Task_OnSessionClose (UserHook 2) 0)]).
  vm_compute. reflexivity.
Defined.

(** X15: the life of a connection.  When the session of a handleConn is
    closed while it waits, handleConn goes on to the end: it removes the
    registry entry under the session's identifier, starts the
    OnSessionClose hook if there is one (a nil hook is skipped, as a nil
    OnSessionCreate hook was), closes the connection, and returns also
    when that Close fails, which it only logs.  The registry is then
    what it was before the connection, if the identifier was not in use. *)
Theorem handleConn_lifecycle (id : string) (conn : Conn) (st : State) :
  let sess := fresh (dom (heap st)) in
  let waiting := (handleConn_steps 5 id conn hc_newSession st).2 in
  ∃ final,
    handleConn_steps 4 id conn (hc_recv_closed sess)
      (closed_by_other sess waiting) = (Returns hc_return, final) ∧
    trace final =
      trace st ++ session_created_events (srv st) id conn sess ++
      session_closed_events (srv st) id conn sess ∧
    registry final = delete id (registry st) ∧
    (registry st !! id = None → registry final = registry st) ∧
    heap final !! sess =
      Some (Session_closed_fired (new_session (srv st) id conn)).
Proof.
  intros sess waiting. unfold waiting.
  rewrite handleConn_until_recv. fold sess.
  destruct st as [s h r tr]. simpl.
  unfold handleConn_step, Sessions_Remove, Session_ID, recv_closed,
    closed_by_other, session_closed_events, session_created_events.
  unfold_M. simpl.
  rewrite lookup_alter_eq, lookup_insert_eq. simpl.
  rewrite lookup_alter_eq, lookup_insert_eq. simpl.
  destruct (Server.OnSessionClose s), (conn_Close conn),
    (Server.OnSessionCreate s); simpl;
    (eexists; split; [reflexivity|]; simpl;
     split; [by norm_trace|];
     rewrite delete_insert_eq;
     split; [done|]; split; [apply delete_id|];
     by rewrite lookup_alter_eq, lookup_insert_eq).
Qed.

Lemma handleConn_lifecycle_witness :
  registry
    (handleConn_steps 4 "s1" (demo_conn 1) (hc_recv_closed 0)
       (closed_by_other 0 hc_demo_waiting)).2 = registry hooked_entry.
Proof.
  destruct (handleConn_lifecycle "s1" (demo_conn 1) hooked_entry)
    as (final & Hrun & _ & _ & Hback & _).
  change (handleConn_steps 5 "s1" (demo_conn 1) hc_newSession hooked_entry).2
    with hc_demo_waiting in Hrun.
  change (fresh (dom (heap hooked_entry))) with 0%nat in Hrun.
  rewrite Hrun. apply Hback. reflexivity.
Defined.

(** * The broadcast example server *)

Lemma Broadcast_SetID_eq sess id ids : Broadcast.SetID sess id ids sess = id.
Proof. unfold Broadcast.SetID. by rewrite decide_True. Qed.

Lemma Broadcast_SetID_ne sess id ids s :
  s ≠ sess → Broadcast.SetID sess id ids s = ids s.
Proof. intros Hne. unfold Broadcast.SetID. by rewrite decide_False. Qed.

Lemma Broadcast_create_step sess w :
  Broadcast.OnSessionCreate sess w =
  (Returns (),
   {| Broadcast.sessions :=
        {| Broadcast.nextId :=
             int_incr (Broadcast.nextId (Broadcast.sessions w));
           Broadcast.storage :=
             <[Broadcast.nextId (Broadcast.sessions w) := sess]>
               (Broadcast.storage (Broadcast.sessions w)) |};
      Broadcast.ids :=
        Broadcast.SetID sess
          (Broadcast.ID_int64 (Broadcast.nextId (Broadcast.sessions w)))
          (Broadcast.ids w) |}).
Proof.
  unfold Broadcast.OnSessionCreate. by rewrite Broadcast_SetID_eq.
Qed.

Lemma int_incr_small n : - 2 ^ 63 <= n + 1 < 2 ^ 63 → int_incr n = n + 1.
Proof.
  intros Hn. unfold int_incr, int_wrap. rewrite Z.mod_small by lia. lia.
Qed.

(** X16: the session manager hands out consecutive identifiers.  From a
    manager whose next identifier is [k], after the creation hook has
    run for the distinct sessions [ss] (without overflow of the
    counter), the i-th of them has the identifier [k + i] and is stored
    under it, the next identifier is [k] plus their number, the other
    entries of the storage and the other sessions are untouched; the
    hook never panics. *)
Theorem Broadcast_consecutive_ids (ss : list nat) (w : Broadcast.World) :
  let k := Broadcast.nextId (Broadcast.sessions w) in
  let w' := Broadcast.create_all ss w in
  NoDup ss →
  - 2 ^ 63 <= k →
  k + Z.of_nat (length ss) < 2 ^ 63 →
  Broadcast.nextId (Broadcast.sessions w') = k + Z.of_nat (length ss) ∧
  (∀ (i : nat) sess, ss !! i = Some sess →
     Broadcast.ids w' sess = Broadcast.ID_int64 (k + Z.of_nat i) ∧
     Broadcast.storage (Broadcast.sessions w') !! (k + Z.of_nat i) =
       Some sess) ∧
  (∀ z, ¬ (k <= z < k + Z.of_nat (length ss)) →
     Broadcast.storage (Broadcast.sessions w') !! z =
     Broadcast.storage (Broadcast.sessions w) !! z) ∧
  (∀ sess, sess ∉ ss → Broadcast.ids w' sess = Broadcast.ids w sess) ∧
  (∀ sess w0, (Broadcast.OnSessionCreate sess w0).1 = Returns ()).
Proof.
  intros k w' Hnd Hlo Hhi. subst k w'.
  assert (Hret : ∀ sess w0,
            (Broadcast.OnSessionCreate sess w0).1 = Returns ())
    by (intros; by rewrite Broadcast_create_step).
  revert w Hlo Hhi. induction Hnd as [|s ss Hnotin Hnd IH]; intros w Hlo Hhi.
  { simpl. rewrite Z.add_0_r. split; [done|]. split; [done|].
    split; [done|]. split; [done|]. exact Hret. }
  cbn [length] in *. rewrite Nat2Z.inj_succ in *.
  change (Broadcast.create_all (s :: ss) w)
    with (Broadcast.create_all ss (Broadcast.OnSessionCreate s w).2).
  rewrite Broadcast_create_step. cbn [snd].
  match goal with |- context [Broadcast.create_all ss ?w0] =>
    set (w1 := w0) end.
  assert (Hstep : int_incr (Broadcast.nextId (Broadcast.sessions w)) =
                  Broadcast.nextId (Broadcast.sessions w) + 1)
    by (apply int_incr_small; lia).
  destruct (IH w1) as (Hnext & Hith & Hout & Hids & _).
  { subst w1. cbn [Broadcast.nextId Broadcast.sessions]. lia. }
  { subst w1. cbn [Broadcast.nextId Broadcast.sessions]. lia. }
  subst w1.
  cbn [Broadcast.nextId Broadcast.sessions Broadcast.storage Broadcast.ids]
    in Hnext, Hith, Hout, Hids.
  rewrite Hstep in Hnext, Hith, Hout, Hids |- *.
  split; [lia|]. split; [|split; [|split; [|exact Hret]]].
  - intros [|i] sess Hi; simpl in Hi.
    + injection Hi as ->. rewrite Z.add_0_r.
      rewrite (Hids _ Hnotin). rewrite Hout by lia.
      by rewrite Broadcast_SetID_eq, lookup_insert_eq.
    + destruct (Hith i sess Hi) as [Hid Hst].
      replace (Broadcast.nextId (Broadcast.sessions w) + Z.of_nat (S i))
        with (Broadcast.nextId (Broadcast.sessions w) + 1 + Z.of_nat i) by lia.
      done.
  - intros z Hz. rewrite Hout by lia.
    apply lookup_insert_ne. lia.
  - intros sess Hsess. apply not_elem_of_cons in Hsess as [Hne Hsess].
    rewrite (Hids _ Hsess). by rewrite Broadcast_SetID_ne.
Qed.

Lemma Broadcast_consecutive_ids_witness :
  Broadcast.ids Broadcast.three_sessions 10%nat = Broadcast.ID_int64 1 ∧
  Broadcast.ids Broadcast.three_sessions 11%nat = Broadcast.ID_int64 2 ∧
  Broadcast.ids Broadcast.three_sessions 12%nat = Broadcast.ID_int64 3 ∧
  Broadcast.nextId (Broadcast.sessions Broadcast.three_sessions) = 4.
Proof.
  destruct (Broadcast_consecutive_ids [10; 11; 12]%nat
    {| Broadcast.sessions := Broadcast.init;
       Broadcast.ids := λ _, Broadcast.ID_other 0 "" |})
    as (Hnext & Hith & _).
  - repeat constructor; intros Hin;
      repeat (apply elem_of_cons in Hin as [Hin|Hin]; [done|]);
      by apply elem_of_nil in Hin.
  - done.
  - done.
  - split; [exact (proj1 (Hith 0%nat 10%nat eq_refl))|].
    split; [exact (proj1 (Hith 1%nat 11%nat eq_refl))|].
    split; [exact (proj1 (Hith 2%nat 12%nat eq_refl))|].
    exact Hnext.
Defined.

(** X17: creation and close undo each other on the storage.  When the
    next identifier is not in use, the close hook run after the
    creation hook for the same session leaves the storage as it was
    before the two; the counter is not wound back, so the identifier is
    not handed out again.  On a session whose identifier is not an
    int64 (none was set by the creation hook), the close hook panics on
    its type assertion and leaves the manager alone. *)
Theorem Broadcast_create_then_close (sess : nat) (w : Broadcast.World) :
  (Broadcast.storage (Broadcast.sessions w)
     !! Broadcast.nextId (Broadcast.sessions w) = None →
   ∃ w',
     Broadcast.OnSessionClose sess (Broadcast.OnSessionCreate sess w).2 =
       (Returns (), w') ∧
     Broadcast.storage (Broadcast.sessions w') =
       Broadcast.storage (Broadcast.sessions w) ∧
     Broadcast.nextId (Broadcast.sessions w') =
       int_incr (Broadcast.nextId (Broadcast.sessions w))) ∧
  (Broadcast.as_int64 (Broadcast.ids w sess) = None →
   Broadcast.OnSessionClose sess w = (Panics InterfaceConversion, w)).
Proof.
  split.
  - intros Hfree. rewrite Broadcast_create_step. cbn [snd].
    unfold Broadcast.OnSessionClose.
    cbn [Broadcast.ids Broadcast.sessions Broadcast.storage Broadcast.nextId].
    rewrite Broadcast_SetID_eq. cbn [Broadcast.as_int64].
    eexists. split; [reflexivity|].
    cbn [Broadcast.sessions Broadcast.storage Broadcast.nextId].
    split; [|done]. rewrite delete_insert_eq. by apply delete_id.
  - intros Hother. unfold Broadcast.OnSessionClose. by rewrite Hother.
Qed.

Lemma Broadcast_create_then_close_witness :
  (∃ w',
     Broadcast.OnSessionClose 13%nat
       (Broadcast.OnSessionCreate 13%nat Broadcast.three_sessions).2 =
       (Returns (), w') ∧
     Broadcast.storage (Broadcast.sessions w') =
       Broadcast.storage (Broadcast.sessions Broadcast.three_sessions) ∧
     Broadcast.nextId (Broadcast.sessions w') = int_incr 4) ∧
  Broadcast.OnSessionClose 13%nat Broadcast.three_sessions =
    (Panics InterfaceConversion, Broadcast.three_sessions).
Proof.
  destruct (Broadcast_create_then_close 13%nat Broadcast.three_sessions)
    as [Hround Hpanic].
  split.
  - apply Hround. vm_compute. reflexivity.
  - apply Hpanic. vm_compute. reflexivity.
Defined.




